(** * File-availability report: name normalisation and presence matrix

    A shallow embedding of [make_file_report.py]: [clean_filename],
    [create_file_matrix] and [filter_matrix], followed by the properties
    the specification states about them.

    Characters are code points below 256 (the type [ascii]); a Python
    string is the list of its characters.  The two curly apostrophes
    U+2018 and U+2019 that the punctuation class of [clean_filename] also
    removes lie outside this alphabet.  Integers are Python's unbounded
    integers ([N]); exceptions are the left summand of a sum type. *)

From Stdlib Require Import NArith Ascii String DecimalString DecimalN.
From stdpp Require Import gmap strings list sorting.

Local Open Scope char_scope.

(** ** Character classes *)

Definition code (c : ascii) : N := N_of_ascii c.

Definition between (lo hi n : N) : bool := ((lo <=? n) && (n <=? hi))%N.

(** [\d] : the decimal digits. *)
Definition isdigit (c : ascii) : bool := between 48 57 (code c).

(** [\s], and the characters [str.strip()] removes: TAB, LF, VT, FF, CR,
    the separators 0x1c..0x1f, space, NEL (0x85) and NBSP (0xa0). *)
Definition isspace (c : ascii) : bool :=
  between 9 13 (code c) || between 28 32 (code c)
  || (code c =? 133)%N || (code c =? 160)%N.

(** [[a-z]] and [[A-Z]]. *)
Definition islower_az (c : ascii) : bool := between 97 122 (code c).
Definition isupper_AZ (c : ascii) : bool := between 65 90 (code c).

(** [str.lower()] on one character: A..Z and the capital letters
    0xc0..0xde (the multiplication sign 0xd7 apart) move up by 32. *)
Definition lower (c : ascii) : ascii :=
  if isupper_AZ c || (between 192 222 (code c) && negb (code c =? 215)%N)
  then ascii_of_N (code c + 32) else c.

Definition chr_eqb (a b : ascii) : bool := Ascii.eqb a b.

(** Separators after the number prefix: [[-_\s]]. *)
Definition is_separator (c : ascii) : bool :=
  chr_eqb c "-" || chr_eqb c "_" || isspace c.

(** [[',.\d]] : apostrophe, comma, period, digit. *)
Definition is_punct_or_digit (c : ascii) : bool :=
  chr_eqb c "'" || chr_eqb c "," || chr_eqb c "." || isdigit c.

Definition LF : ascii := "010".

(** ** Strings as character lists *)

Abbreviation str := (list ascii).

Fixpoint take_while (p : ascii → bool) (l : str) : str :=
  match l with
  | c :: r => if p c then c :: take_while p r else []
  | [] => []
  end.

Fixpoint drop_while (p : ascii → bool) (l : str) : str :=
  match l with
  | c :: r => if p c then drop_while p r else l
  | [] => []
  end.

(** [int(digits)] for a run of decimal digits, and [f"{number}"]. *)
Definition int (ds : str) : N :=
  match NilEmpty.uint_of_string (string_of_list_ascii ds) with
  | Some d => N.of_uint d
  | None => 0%N
  end.

Definition str_of_int (n : N) : str :=
  list_ascii_of_string (NilEmpty.string_of_uint (N.to_uint n)).

(** [s.rsplit('.', 1)[0]] : the text before the last period, or all of
    [s] when it has none. *)
Fixpoint has_dot (l : str) : bool :=
  match l with
  | c :: r => chr_eqb c "." || has_dot r
  | [] => false
  end.

Fixpoint rsplit_dot (l : str) : str :=
  match l with
  | c :: r => if chr_eqb c "." && negb (has_dot r) then [] else c :: rsplit_dot r
  | [] => []
  end.

(** [re.sub(r'^\d+\s*[-_\s]*', '', name)] *)
Definition strip_number_prefix (l : str) : str :=
  match take_while isdigit l with
  | [] => l
  | _ => drop_while is_separator (drop_while isspace (drop_while isdigit l))
  end.

(** A literal matched under [re.IGNORECASE]: [pat] is given in lower
    case; the result is the text after the match. *)
Fixpoint prefix_nocase (pat l : str) : option str :=
  match pat with
  | [] => Some l
  | p :: pat' =>
      match l with
      | c :: r => if chr_eqb (lower c) p then prefix_nocase pat' r else None
      | [] => None
      end
  end.

(** [re.sub(r"^\d+\s+O'Clock\s+", '', name, flags=re.IGNORECASE)] *)
Definition strip_oclock (l : str) : str :=
  match take_while isdigit l with
  | [] => l
  | _ =>
      let r1 := drop_while isdigit l in
      match take_while isspace r1 with
      | [] => l
      | _ =>
          match prefix_nocase (list_ascii_of_string "o'clock")
                  (drop_while isspace r1) with
          | None => l
          | Some r3 =>
              match take_while isspace r3 with
              | [] => l
              | _ => drop_while isspace r3
              end
          end
      end
  end.

(** [name.replace('_', ' ')] *)
Definition replace_underscores (l : str) : str :=
  map (λ c, if chr_eqb c "_" then " " else c) l.

(** The alternation [(alto\d*|flute|drums|bass|soprano|edit|orig|concert|NEW)]
    under [re.IGNORECASE].  The [\d*] after [alto] is absorbed by the [.*]
    that follows every alternative. *)
Definition instrument_tokens : list str :=
  map list_ascii_of_string
    ["alto"; "flute"; "drums"; "bass"; "soprano"; "edit"; "orig";
     "concert"; "new"]%string.

Fixpoint match_token (ts : list str) (l : str) : option str :=
  match ts with
  | t :: ts' =>
      match prefix_nocase t l with
      | Some r => Some r
      | None => match_token ts' l
      end
  | [] => None
  end.

(** [.*$] : [.] is any character but LF, and [$] holds at the end of the
    string or just before a final LF.  The result is the unmatched rest. *)
Definition dot_star_end (l : str) : option str :=
  match drop_while (λ c, negb (chr_eqb c LF)) l with
  | [] => Some []
  | [c] => Some [c]
  | _ => None
  end.

(** [\s+(alto\d*|...).*$] matched at the head of [l]. *)
Definition suffix_at (l : str) : option str :=
  match take_while isspace l with
  | [] => None
  | _ =>
      match match_token instrument_tokens (drop_while isspace l) with
      | Some r => dot_star_end r
      | None => None
      end
  end.

(** [re.sub(r'\s+(alto\d*|...).*$', '', name, flags=re.IGNORECASE)] : the
    leftmost match is cut out; what follows it is empty or one LF, where
    the pattern cannot match again. *)
Fixpoint strip_suffix (l : str) : str :=
  match l with
  | c :: r =>
      match suffix_at l with
      | Some rest => rest
      | None => c :: strip_suffix r
      end
  | [] => []
  end.

(** [\s*[\(\-].*$] matched at the head of [l]. *)
Definition trailer_at (l : str) : option str :=
  match drop_while isspace l with
  | c :: r => if chr_eqb c "(" || chr_eqb c "-" then dot_star_end r else None
  | [] => None
  end.

(** [re.sub(r'\s*[\(\-].*$', '', name)] *)
Fixpoint strip_trailer (l : str) : str :=
  match l with
  | c :: r =>
      match trailer_at l with
      | Some rest => rest
      | None => c :: strip_trailer r
      end
  | [] => []
  end.

(** [re.sub(r"[',.\d]", '', name)] *)
Definition remove_punctuation (l : str) : str :=
  filter (λ c, negb (is_punct_or_digit c)) l.

(** [re.sub(r'([a-z])([A-Z])', r'\1 \2', name)] *)
Fixpoint split_camel (l : str) : str :=
  match l with
  | a :: t =>
      match t with
      | b :: r =>
          if islower_az a && isupper_AZ b
          then a :: " " :: b :: split_camel r
          else a :: split_camel t
      | [] => [a]
      end
  | [] => []
  end.

(** [re.sub(r'\s+', ' ', name)] : of a run of white space only the last
    character is kept, as one space. *)
Fixpoint collapse_spaces (l : str) : str :=
  match l with
  | c :: r =>
      if isspace c then
        match r with
        | c' :: _ => if isspace c' then collapse_spaces r
                     else " " :: collapse_spaces r
        | [] => [" "]
        end
      else c :: collapse_spaces r
  | [] => []
  end.

(** [s.strip()] and [s.rstrip('-')] *)
Definition rstrip (p : ascii → bool) (l : str) : str :=
  rev (drop_while p (rev l)).

Definition strip (l : str) : str := rstrip isspace (drop_while isspace l).

Definition rstrip_dash (l : str) : str := rstrip (λ c, chr_eqb c "-") l.

(** ** [clean_filename] *)

(** Lines 59 to 79: the name part, from the file name. *)
Definition clean_name (filename : str) : str :=
  let name := rsplit_dot filename in
  let name := strip_number_prefix name in
  let name := strip_oclock name in
  let name := replace_underscores name in
  let name := strip_suffix name in
  let name := strip_trailer name in
  let name := remove_punctuation name in
  let name := split_camel name in
  let name := collapse_spaces name in
  let name := strip (rstrip_dash (strip name)) in
  map lower name.

Definition clean_filename_chars (filename : str) : str :=
  match take_while isdigit filename with
  | [] => []
  | ds =>
      let number := int ds in
      match clean_name filename with
      | [] => []
      | name => str_of_int number ++ " " :: name
      end
  end.

Definition clean_filename (filename : string) : string :=
  string_of_list_ascii (clean_filename_chars (list_ascii_of_string filename)).

(** ** The listing and the presence matrix *)

(** What [download_responses] returns: a dict from titles to either a
    file handle or the dict of a sub-folder. *)
#[local] Unset Elimination Schemes.
Inductive item : Type :=
  | GoogleDriveFile
  | Dict (entries : gmap string item).
#[local] Set Elimination Schemes.

(** A cell of the data frame. *)
Inductive cell : Type :=
  | NaN
  | Bool (b : bool)
  | Str (s : string)
  | Int (n : N).

#[global] Instance cell_eq_dec : EqDecision cell.
Proof. solve_decision. Defined.

(** A data frame: the row labels, and the columns in order, each with
    its label and one cell per row. *)
Record DataFrame : Type := mkDataFrame {
  index : list string;
  columns : list (string * list cell)
}.

Inductive error : Type := ValueError | KeyError.

Definition labels (df : DataFrame) : list string := fst <$> columns df.

(** [sorted(s)] on a set of strings: ascending by code points. *)
Definition sorted (X : gset string) : list string :=
  merge_sort String.le (elements X).

(** The keys of [{clean_filename(f): v for f, v in files.items()}]; the
    values are never read. *)
Definition cleaned_keys (files : gmap string item) : gset string :=
  set_map clean_filename (dom files).

(** Lines 88 to 93: file handles at the top level are skipped. *)
Definition clean_dict (folder_dict : gmap string item)
  : gmap string (gset string) :=
  omap (λ files, match files with
                 | GoogleDriveFile => None
                 | Dict entries => Some (cleaned_keys entries)
                 end) folder_dict.

(** Lines 95 to 100. *)
Definition all_filenames (cleaned_dict : gmap string (gset string))
  : gset string :=
  ⋃ (snd <$> map_to_list cleaned_dict) ∖ {[ ""%string ]}.

(** [matrix[label] = values] : every column carrying the label is
    overwritten; a new column is appended when there is none. *)
Definition assign (cols : list (string * list cell)) (label : string)
    (values : list cell) : list (string * list cell) :=
  if decide (label ∈ cols.*1)
  then (λ c : string * list cell,
          if decide (c.1 = label) then (label, values) else c) <$> cols
  else cols ++ [(label, values)].

(** [index.isin(keys)] *)
Definition isin (idx : list string) (keys : gset string) : list cell :=
  (λ row, Bool (bool_decide (row ∈ keys))) <$> idx.

(** [matrix.replace({True: "yes", False: "no"})] *)
Definition yes_no (c : cell) : cell :=
  match c with
  | Bool true => Str "yes"
  | Bool false => Str "no"
  | _ => c
  end.

(** [index.str.split(' ').str[0]] and [astype(int)] on one label.  A token
    that is not a plain run of digits counts as a failed conversion. *)
Definition first_token (key : string) : str :=
  take_while (λ c, negb (chr_eqb c " ")) (list_ascii_of_string key).

Definition parse_int (tok : str) : option N :=
  match tok with
  | [] => None
  | _ => if forallb isdigit tok then Some (int tok) else None
  end.

Definition number_column (idx : list string) : option (list cell) :=
  mapM (λ row, Int <$> parse_int (first_token row)) idx.

(** [create_file_matrix] *)
Definition create_file_matrix (folder_dict : gmap string item)
  : error + DataFrame :=
  let cleaned_dict := clean_dict folder_dict in
  let idx := sorted (all_filenames cleaned_dict) in
  let cols := (λ f : string, (f, replicate (length idx) NaN))
                <$> sorted (dom cleaned_dict) in
  let cols := foldl (λ cols fk, assign cols fk.1 (isin idx fk.2)) cols
                (map_to_list cleaned_dict) in
  let cols := (λ c : string * list cell, (c.1, yes_no <$> c.2)) <$> cols in
  match number_column idx with
  | None => inl ValueError
  | Some numbers =>
      if decide ("Number"%string ∈ cols.*1) then inl ValueError
      else inr (mkDataFrame idx (("Number"%string, numbers) :: cols))
  end.

Definition misc_parts : string :=
  "VJE MISCELLANEOUS PARTS (VOCAL, VIBRAPHONE, ETC.)".

(** [filter_matrix] : [df.drop(columns=[...])] raises [KeyError] when no
    column carries the label. *)
Definition filter_matrix (df : DataFrame) : error + DataFrame :=
  if decide (misc_parts ∈ labels df)
  then inr (mkDataFrame (index df)
              (filter (λ c : string * list cell, c.1 ≠ misc_parts) (columns df)))
  else inl KeyError.

(** [create_file_matrix(file_list).pipe(filter_matrix)] *)
Definition pipeline (folder_dict : gmap string item) : error + DataFrame :=
  match create_file_matrix folder_dict with
  | inl e => inl e
  | inr df => filter_matrix df
  end.

Definition files_of (names : list string) : item :=
  Dict (list_to_map ((λ n, (n, GoogleDriveFile)) <$> names)).

Definition example_listing : gmap string item :=
  list_to_map
    [("A"%string, files_of ["1 Song.mp3"; "2 Other.mp3"; "notes.txt"]%string);
     ("B"%string, files_of ["1_song_alto.pdf"]%string);
     ("readme"%string, GoogleDriveFile)].

Definition misc_listing : gmap string item :=
  list_to_map
    [("ALTO 1"%string, files_of ["1 Song.mp3"%string]);
     (misc_parts, files_of ["2 Vocal.pdf"%string])].

(** ** Listing the drive *)

(** The fields of a Drive file that [download_responses] reads. *)
Record file : Type := mkFile {
  title : string;
  mimeType : string;
  id : string
}.

Definition folder_mime : string := "application/vnd.google-apps.folder".

(** One turn of the loop of [list_files_recursive] (lines 40 to 44):
    [sub] is the listing of the folder [f], when [f] is one. *)
Definition add_entry (sub : string → option (gmap string item))
    (result : option (gmap string item)) (f : file)
  : option (gmap string item) :=
  r ← result;
  if decide (mimeType f = folder_mime)
  then s ← sub (id f); Some (<[title f := Dict s]> r)
  else Some (<[title f := GoogleDriveFile]> r).

(** [list_files_recursive] : [ListFile folder_id] is what the query of
    line 35 returns for a folder, in order.  [depth] bounds the nesting of
    the calls, as the interpreter's recursion limit does; [None] stands
    for the [RecursionError] raised when it is exceeded. *)
Fixpoint list_files_recursive (depth : nat) (ListFile : string → list file)
    (folder_id : string) : option (gmap string item) :=
  match depth with
  | 0 => None
  | S d =>
      foldl (add_entry (list_files_recursive d ListFile)) (Some ∅)
        (ListFile folder_id)
  end.

Definition download_responses (depth : nat) (ListFile : string → list file)
    (folder_id : string) : option (gmap string item) :=
  list_files_recursive depth ListFile folder_id.

(** A drive with the folders ALTO 1 and Old, a file that is also titled
    Old, and a sub-folder inside ALTO 1. *)
Definition example_drive (folder_id : string) : list file :=
  if decide (folder_id = "root"%string) then
    [mkFile "ALTO 1" folder_mime "a1"; mkFile "Old" folder_mime "o1";
     mkFile "Old" "application/pdf" "o2"]%string
  else if decide (folder_id = "a1"%string) then
    [mkFile "1 Song.mp3" "audio/mpeg" "s1";
     mkFile "2 Drafts" folder_mime "d1"]%string
  else if decide (folder_id = "d1"%string) then
    [mkFile "3 Sketch.pdf" "application/pdf" "k1"]%string
  else [].


(** The names listed in the folders of a listing, over all folders. *)
Definition listed_filenames (folder_dict : gmap string item) : gset string :=
  ⋃ ((λ files, match files with
               | GoogleDriveFile => ∅
               | Dict entries => dom entries
               end) <$> (map_to_list folder_dict).*2).

(** The text of a key after its first space: [key.split(' ', 1)[1]]. *)
Definition key_name (key : str) : str :=
  match drop_while (λ c, negb (chr_eqb c " ")) key with
  | _ :: name => name
  | [] => []
  end.

(** A character as the name part of a key has it: no digit, no
    apostrophe, comma, period or underscore, no capital letter, and no
    white space other than the space. *)
Definition canon (c : ascii) : bool :=
  negb (is_punct_or_digit c) && negb (chr_eqb c "_")
  && chr_eqb (lower c) c && (negb (isspace c) || chr_eqb c " ").

(** White space occurs only as single spaces. *)
Fixpoint collapsed (l : str) : bool :=
  match l with
  | c :: r =>
      (negb (isspace c)
       || (chr_eqb c " "
           && match r with c' :: _ => negb (isspace c') | [] => true end))
      && collapsed r
  | [] => true
  end.

(** The column of a folder once its booleans are replaced. *)
Definition presence_column (idx : list string) (keys : gset string)
  : list cell :=
  (λ row, Str (if bool_decide (row ∈ keys) then "yes" else "no")) <$> idx.

(** The folder columns of the matrix, before the number column is put
    in front. *)
Definition folder_columns (L : gmap string item) : list (string * list cell) :=
  let cd := clean_dict L in
  (λ f : string,
     (f, presence_column (sorted (all_filenames cd)) (default ∅ (cd !! f))))
    <$> sorted (dom cd).

(** * Properties *)

(** ** Worked examples *)

Example clean_filename_song :
  clean_filename "12_Song_Name_Alto.pdf" = "12 song name"%string.
Proof. vm_compute. reflexivity. Qed.

Example clean_filename_oclock :
  clean_filename "7 O'Clock Shadow.wav" = "7 oclock shadow"%string.
Proof. vm_compute. reflexivity. Qed.

Example clean_filename_live :
  clean_filename "03-Title (Live Version).mp3" = "3 title"%string.
Proof. vm_compute. reflexivity. Qed.

Example clean_filename_camel :
  clean_filename "1 SongAlto.pdf" = "1 song alto"%string
  ∧ clean_filename "1 song alto.pdf" = "1 song"%string.
Proof. vm_compute. split; reflexivity. Qed.

Example create_file_matrix_example :
  create_file_matrix example_listing =
  inr (mkDataFrame ["1 song"; "2 other"]%string
         [("Number", [Int 1; Int 2]);
          ("A", [Str "yes"; Str "yes"]);
          ("B", [Str "yes"; Str "no"])]%string).
Proof. vm_compute. reflexivity. Qed.

(** ** Characters *)

Ltac by_chars c := destruct c as [[] [] [] [] [] [] [] []]; vm_compute; try tauto; try congruence.

Lemma chr_eqb_eq a b : chr_eqb a b = true ↔ a = b.
Proof. apply Ascii.eqb_eq. Qed.

Lemma chr_eqb_refl a : chr_eqb a a = true.
Proof. apply Ascii.eqb_refl. Qed.

Lemma isspace_lower c : isspace (lower c) = isspace c.
Proof. by_chars c. Qed.

Lemma isdigit_not_space c : isdigit c = true → chr_eqb c " " = false.
Proof. by_chars c. Qed.

Lemma lower_lower c : lower (lower c) = lower c.
Proof. by_chars c. Qed.

(** ** Character lists *)

Lemma chars_of_string l : list_ascii_of_string (string_of_list_ascii l) = l.
Proof. apply list_ascii_of_string_of_list_ascii. Qed.

Lemma string_of_chars s : string_of_list_ascii (list_ascii_of_string s) = s.
Proof. apply string_of_list_ascii_of_string. Qed.


Lemma take_drop_while p l : take_while p l ++ drop_while p l = l.
Proof. induction l as [|c r IH]; simpl; [done|]. destruct (p c); simpl; congruence. Qed.

Lemma take_while_all p l : forallb p (take_while p l) = true.
Proof. induction l as [|c r IH]; simpl; [done|]. destruct (p c) eqn:E; simpl; [by rewrite E|done]. Qed.

Lemma drop_while_head p l c r : drop_while p l = c :: r → p c = false.
Proof.
  induction l as [|a l IH]; simpl; [done|].
  destruct (p a) eqn:E; [done|]. by intros [= <- _].
Qed.

Lemma take_while_app p l c r :
  forallb p l = true → p c = false → take_while p (l ++ c :: r) = l.
Proof.
  induction l as [|a l IH]; simpl; intros Hl Hc; [by rewrite Hc|].
  apply andb_true_iff in Hl as [-> Hl]. by rewrite IH.
Qed.

Lemma drop_while_app p l c r :
  forallb p l = true → p c = false → drop_while p (l ++ c :: r) = c :: r.
Proof.
  induction l as [|a l IH]; simpl; intros Hl Hc; [by rewrite Hc|].
  apply andb_true_iff in Hl as [-> Hl]. by rewrite IH.
Qed.

Lemma drop_while_id p l : head l = None ∨ (∃ c, head l = Some c ∧ p c = false) → drop_while p l = l.
Proof. destruct l as [|a l]; simpl; [done|]. intros [?|(c & [= ->] & ->)]; done. Qed.

(** [rstrip] keeps a prefix and removes a run of matching characters. *)
Lemma rstrip_split p l : ∃ t, l = rstrip p l ++ t ∧ forallb p t = true.
Proof.
  unfold rstrip. exists (rev (take_while p (rev l))). split.
  - rewrite <- rev_app_distr, take_drop_while. by rewrite rev_involutive.
  - rewrite forallb_forall. intros c Hc%in_rev.
    pose proof (take_while_all p (rev l)) as H.
    rewrite forallb_forall in H. auto.
Qed.

Lemma last_rev_head (l : str) : last (rev l) = head l.
Proof. destruct l as [|a r]; simpl; [done|]. apply last_snoc. Qed.

Lemma rstrip_last p l c : last (rstrip p l) = Some c → p c = false.
Proof.
  unfold rstrip. rewrite last_rev_head.
  destruct (drop_while p (rev l)) as [|a r] eqn:E; simpl; [done|].
  intros [= <-]. by eapply drop_while_head.
Qed.

Lemma rstrip_head p l c : head (rstrip p l) = Some c → head l = Some c.
Proof.
  destruct (rstrip_split p l) as (t & Hl & _).
  destruct (rstrip p l) as [|a r]; simpl; [done|].
  intros [= ->]. by rewrite Hl.
Qed.

Lemma strip_head l c : head (strip l) = Some c → isspace c = false.
Proof.
  unfold strip. intros H%rstrip_head.
  destruct (drop_while isspace l) as [|a r] eqn:E; simplify_eq/=.
  by eapply drop_while_head.
Qed.

Lemma strip_last l c : last (strip l) = Some c → isspace c = false.
Proof. apply rstrip_last. Qed.

(** ** Numbers *)

Lemma int_str_of_int n : int (str_of_int n) = n.
Proof.
  unfold int, str_of_int.
  by rewrite string_of_chars, NilEmpty.usu, DecimalN.Unsigned.of_to.
Qed.

Lemma string_of_uint_digits d :
  forallb isdigit (list_ascii_of_string (NilEmpty.string_of_uint d)) = true.
Proof. induction d; simpl; auto. Qed.

Lemma str_of_int_digits n : forallb isdigit (str_of_int n) = true.
Proof. apply string_of_uint_digits. Qed.

Lemma str_of_int_nonempty n : str_of_int n ≠ [].
Proof.
  intros H. pose proof (int_str_of_int n) as Hn. rewrite H in Hn.
  vm_compute in Hn. subst n. by vm_compute in H.
Qed.

Lemma forallb_digit_not_space l :
  forallb isdigit l = true → forallb (λ c, negb (chr_eqb c " ")) l = true.
Proof.
  rewrite !forallb_forall. intros H c Hc.
  by rewrite (isdigit_not_space c (H c Hc)).
Qed.



(** ** Sorting and sets *)

Lemma sorted_perm (X : gset string) : sorted X ≡ₚ elements X.
Proof. apply merge_sort_Permutation. Qed.

Lemma elem_of_sorted (X : gset string) x : x ∈ sorted X ↔ x ∈ X.
Proof. by rewrite sorted_perm, elem_of_elements. Qed.

Lemma NoDup_sorted (X : gset string) : NoDup (sorted X).
Proof. rewrite sorted_perm. apply NoDup_elements. Qed.

Lemma length_sorted (X : gset string) : length (sorted X) = size X.
Proof. by rewrite sorted_perm. Qed.

Lemma Sorted_sorted (X : gset string) : StronglySorted String.le (sorted X).
Proof. apply (StronglySorted_merge_sort String.le). Qed.

Lemma size_list_to_set_le (l : list string) :
  size (list_to_set l : gset string) ≤ length l.
Proof.
  induction l as [|x l IH]; [by rewrite list_to_set_nil, size_empty|].
  rewrite list_to_set_cons, length_cons.
  destruct (decide (x ∈ (list_to_set l : gset string))) as [Hx|Hx].
  - replace ({[x]} ∪ list_to_set l) with (list_to_set l : gset string)
      by set_solver. lia.
  - rewrite size_union by set_solver. rewrite size_singleton. lia.
Qed.

Lemma size_set_map_le (f : string → string) (X : gset string) :
  size (set_map f X : gset string) ≤ size X.
Proof.
  unfold set_map. etrans; [apply size_list_to_set_le|].
  by rewrite length_fmap.
Qed.

(** ** The cleaned dictionary *)

Lemma elem_of_cleaned_keys entries r :
  r ∈ cleaned_keys entries ↔ ∃ n, r = clean_filename n ∧ n ∈ dom entries.
Proof. unfold cleaned_keys. apply elem_of_map. Qed.

Lemma clean_dict_lookup L f ks :
  clean_dict L !! f = Some ks ↔
  ∃ entries, L !! f = Some (Dict entries) ∧ ks = cleaned_keys entries.
Proof.
  unfold clean_dict. rewrite lookup_omap_Some. split.
  - intros ([|entries] & Hx & Hf); simplify_eq. eauto.
  - intros (entries & Hf & ->). exists (Dict entries). eauto.
Qed.

Lemma elem_of_dom_clean_dict L f :
  f ∈ dom (clean_dict L) ↔ ∃ entries, L !! f = Some (Dict entries).
Proof.
  rewrite elem_of_dom. unfold is_Some.
  setoid_rewrite clean_dict_lookup. naive_solver.
Qed.

Lemma elem_of_all_filenames (cd : gmap string (gset string)) r :
  r ∈ all_filenames cd ↔ r ≠ ""%string ∧ ∃ f ks, cd !! f = Some ks ∧ r ∈ ks.
Proof.
  unfold all_filenames.
  rewrite elem_of_difference, elem_of_union_list, not_elem_of_singleton.
  split.
  - intros [(ks & Hks & Hr) Hne]. split; [done|].
    apply list_elem_of_fmap in Hks as ([f ks'] & -> & Hin).
    apply elem_of_map_to_list in Hin. eauto.
  - intros [Hne (f & ks & Hf & Hr)]. split; [|done].
    exists ks. split; [|done]. apply list_elem_of_fmap.
    exists (f, ks). split; [done|]. by apply elem_of_map_to_list.
Qed.

(** ** Filling the frame *)

Lemma yes_no_isin idx keys : yes_no <$> isin idx keys = presence_column idx keys.
Proof.
  unfold isin, presence_column. rewrite <- list_fmap_compose.
  apply list_fmap_ext. intros _ row _. simpl. by destruct (bool_decide _).
Qed.

Lemma assign_labels cols label values :
  label ∈ cols.*1 → (assign cols label values).*1 = cols.*1.
Proof.
  intros Hin. unfold assign. rewrite decide_True by done.
  rewrite <- list_fmap_compose. apply list_fmap_ext.
  intros _ c _. simpl. by destruct (decide _).
Qed.

Lemma foldl_assign idx (kvs : list (string * gset string)) cols :
  NoDup kvs.*1 → (∀ k, k ∈ kvs.*1 → k ∈ cols.*1) →
  foldl (λ cols fk, assign cols fk.1 (isin idx fk.2)) cols kvs =
  (λ c : string * list cell,
     (c.1, from_option (isin idx) c.2
             ((list_to_map kvs : gmap string (gset string)) !! c.1)))
    <$> cols.
Proof.
  revert cols. induction kvs as [|[k ks] kvs IH]; intros cols Hnd Hin; simpl.
  - induction cols as [|[l v] cols IHc]; simpl; [done|].
    rewrite lookup_empty. simpl. f_equal. apply IHc. intros ? H. inversion H.
  - apply NoDup_cons in Hnd as [Hk Hnd].
    assert (k ∈ cols.*1) as Hkc by (apply Hin; simpl; left).
    rewrite IH; [|done|].
    2:{ intros k' Hk'. rewrite assign_labels by done. apply Hin. simpl. by right. }
    unfold assign. rewrite decide_True by done.
    rewrite <- list_fmap_compose. apply list_fmap_ext.
    intros _ [l v] _. simpl. destruct (decide (l = k)) as [->|Hne]; simpl.
    + rewrite lookup_insert_eq. simpl.
      by rewrite (not_elem_of_list_to_map_1 _ _ Hk).
    + by rewrite lookup_insert_ne.
Qed.

Lemma folder_columns_labels L : (folder_columns L).*1 = sorted (dom (clean_dict L)).
Proof.
  unfold folder_columns. rewrite <- list_fmap_compose.
  exact (list_fmap_id _).
Qed.

Lemma filled_columns L :
  let cd := clean_dict L in
  let idx := sorted (all_filenames cd) in
  (λ c : string * list cell, (c.1, yes_no <$> c.2)) <$>
    foldl (λ cols fk, assign cols fk.1 (isin idx fk.2))
      ((λ f : string, (f, replicate (length idx) NaN)) <$> sorted (dom cd))
      (map_to_list cd)
  = folder_columns L.
Proof.
  intros cd idx. rewrite foldl_assign.
  - rewrite list_to_map_to_list. unfold folder_columns.
    rewrite <- !list_fmap_compose. apply list_fmap_ext.
    intros i f Hf. simpl.
    assert (f ∈ dom cd) as [ks Hks]%elem_of_dom.
    { apply elem_of_sorted. by eapply list_elem_of_lookup_2. }
    fold cd. rewrite Hks. simpl. by rewrite yes_no_isin.
  - apply NoDup_fst_map_to_list.
  - intros k Hk. rewrite <- list_fmap_compose.
    apply list_elem_of_fmap in Hk as ([k' ks] & -> & Hk).
    apply elem_of_map_to_list in Hk. simpl.
    apply list_elem_of_fmap. exists k'. split; [done|].
    apply elem_of_sorted, elem_of_dom. eauto.
Qed.

(** ** The shape of a canonical key *)

Lemma clean_filename_shape f :
  clean_filename f = ""%string ∨
  ∃ name, name ≠ [] ∧ name = clean_name (list_ascii_of_string f) ∧
    clean_filename f =
      string_of_list_ascii
        (str_of_int (int (take_while isdigit (list_ascii_of_string f)))
           ++ " " :: name).
Proof.
  unfold clean_filename, clean_filename_chars.
  destruct (take_while isdigit _) as [|d ds]; [by left|].
  destruct (clean_name _) as [|c name] eqn:E; [by left|].
  right. by exists (c :: name).
Qed.



(** ** What [create_file_matrix] returns *)

Lemma create_file_matrix_unfold L :
  create_file_matrix L =
  match number_column (sorted (all_filenames (clean_dict L))) with
  | None => inl ValueError
  | Some numbers =>
      if decide ("Number"%string ∈ sorted (dom (clean_dict L)))
      then inl ValueError
      else inr (mkDataFrame (sorted (all_filenames (clean_dict L)))
                  (("Number"%string, numbers) :: folder_columns L))
  end.
Proof.
  unfold create_file_matrix. cbv zeta.
  pose proof (filled_columns L) as H. cbv zeta in H. rewrite H.
  by rewrite folder_columns_labels.
Qed.

Lemma create_file_matrix_inr L m :
  create_file_matrix L = inr m →
  ("Number"%string ∉ dom (clean_dict L)) ∧
  index m = sorted (all_filenames (clean_dict L)) ∧
  ∃ numbers, number_column (index m) = Some numbers ∧
    columns m = ("Number"%string, numbers) :: folder_columns L.
Proof.
  rewrite create_file_matrix_unfold.
  destruct (number_column _) as [numbers|] eqn:E; [|done].
  destruct (decide _) as [|Hn]; [done|]. intros [= <-]. simpl.
  rewrite elem_of_sorted in Hn. eauto.
Qed.


Lemma elem_of_folder_columns L f col :
  (f, col) ∈ folder_columns L ↔
  ∃ entries, L !! f = Some (Dict entries) ∧
    col = presence_column (sorted (all_filenames (clean_dict L)))
            (cleaned_keys entries).
Proof.
  unfold folder_columns. rewrite list_elem_of_fmap. split.
  - intros (f' & [= <- ->] & Hf).
    apply elem_of_sorted, elem_of_dom in Hf as [ks Hks]. rewrite Hks.
    apply clean_dict_lookup in Hks as (entries & ? & ->). eauto.
  - intros (entries & Hf & ->). exists f.
    assert (clean_dict L !! f = Some (cleaned_keys entries)) as Hks
      by (apply clean_dict_lookup; eauto).
    rewrite Hks. split; [done|]. apply elem_of_sorted, elem_of_dom. eauto.
Qed.

(** The "yes" cells of a column. *)
Lemma presence_column_lookup idx keys i row :
  idx !! i = Some row →
  presence_column idx keys !! i
  = Some (Str (if bool_decide (row ∈ keys) then "yes" else "no")).
Proof. intros H. unfold presence_column. by rewrite list_lookup_fmap, H. Qed.

Lemma presence_column_yes idx keys :
  length (filter (λ c, c = Str "yes") (presence_column idx keys))
  = length (filter (λ row, row ∈ keys) idx).
Proof.
  unfold presence_column. induction idx as [|row idx IH]; [done|].
  rewrite fmap_cons, !filter_cons.
  destruct (decide (row ∈ keys)) as [Hr|Hr].
  - rewrite bool_decide_eq_true_2 by done.
    rewrite decide_True by done. simpl. by rewrite IH.
  - rewrite bool_decide_eq_false_2 by done.
    rewrite decide_False by done. done.
Qed.

(** ** Dropping a column *)

Lemma filter_keeps_all {A} (P : A → Prop) `{∀ x, Decision (P x)} (l : list A) :
  (∀ x, x ∈ l → P x) → filter P l = l.
Proof.
  induction l as [|x l IH]; intros Hl; [done|].
  rewrite filter_cons_True by (apply Hl; left).
  f_equal. apply IH. intros y Hy. apply Hl. by right.
Qed.

Lemma filter_label_unique (cols : list (string * list cell)) label :
  NoDup cols.*1 → label ∈ cols.*1 →
  ∃ before values after,
    cols = before ++ (label, values) :: after ∧
    filter (λ c : string * list cell, c.1 ≠ label) cols = before ++ after.
Proof.
  intros Hnd Hin.
  apply list_elem_of_fmap in Hin as ([l values] & -> & Hin). simpl.
  apply list_elem_of_split in Hin as (before & after & ->).
  exists before, values, after. split; [done|].
  rewrite fmap_app, fmap_cons in Hnd. simpl in Hnd.
  apply NoDup_app in Hnd as (_ & Hb & [Ha _]%NoDup_cons).
  rewrite filter_app, filter_cons_False by (simpl; tauto).
  f_equal; apply filter_keeps_all; intros c Hc Heq.
  - apply (Hb c.1); [by apply list_elem_of_fmap_2|]. rewrite Heq. left.
  - apply Ha. rewrite <- Heq. by apply list_elem_of_fmap_2.
Qed.

Lemma misc_parts_not_number : misc_parts ≠ "Number"%string.
Proof. done. Qed.

Lemma labels_create_file_matrix L m :
  create_file_matrix L = inr m →
  labels m = "Number"%string :: sorted (dom (clean_dict L)).
Proof.
  intros (_ & _ & numbers & _ & Hc)%create_file_matrix_inr.
  unfold labels. rewrite Hc. simpl. by rewrite folder_columns_labels.
Qed.

(** ** The name part *)

Lemma clean_name_head l c : head (clean_name l) = Some c → isspace c = false.
Proof.
  unfold clean_name.
  destruct (strip _) as [|a r] eqn:E; simpl; [done|].
  intros [= <-]. rewrite isspace_lower.
  apply (strip_head (rstrip_dash (strip (collapse_spaces (split_camel
    (remove_punctuation (strip_trailer (strip_suffix (replace_underscores
    (strip_oclock (strip_number_prefix (rsplit_dot l)))))))))))).
  by rewrite E.
Qed.

Lemma take_while_digit_head (l : str) :
  take_while isdigit l = [] ↔
  match l with c :: _ => isdigit c = false | [] => True end.
Proof.
  destruct l as [|c r]; simpl; [done|].
  destruct (isdigit c); split; congruence.
Qed.

(** * The statements of the specification *)


(** C7: [clean_filename "12_Song_Name_Alto.pdf"] is ["12 song name"]; the
    instrument suffix is cut before the parenthesis and dash rule runs. *)
Theorem C7_song_name_alto :
  clean_filename "12_Song_Name_Alto.pdf" = "12 song name"%string ∧
  clean_filename "12_Song_Name_Alto (live).pdf" = "12 song name"%string.
Proof. split; by vm_compute. Qed.





(** C4: in the matrix of a listing, the column of a folder has one cell
    per row, ["yes"] where the row's key is among the folder's cleaned
    keys and ["no"] elsewhere; its number of ["yes"] cells is the number
    of distinct non-empty keys obtained from the folder's names. *)
Theorem C4_presence_cells L m f entries :
  create_file_matrix L = inr m → L !! f = Some (Dict entries) →
  ∃ col,
    (f, col) ∈ columns m ∧
    (∀ col', (f, col') ∈ columns m → col' = col) ∧
    length col = length (index m) ∧
    (∀ i row, index m !! i = Some row →
       col !! i = Some (Str (if bool_decide (row ∈ cleaned_keys entries)
                             then "yes" else "no"))) ∧
    length (filter (λ c, c = Str "yes") col)
      = size (cleaned_keys entries ∖ {[ ""%string ]}).
Proof.
  intros (Hnum & Hidx & numbers & _ & Hc)%create_file_matrix_inr Hf.
  assert (f ≠ "Number"%string) as Hne.
  { intros ->. apply Hnum, elem_of_dom_clean_dict. eauto. }
  exists (presence_column (index m) (cleaned_keys entries)).
  rewrite Hc, Hidx. split; [|split; [|split; [|split]]].
  - right. apply elem_of_folder_columns. eauto.
  - intros col' [[= ? _]|Hin]%elem_of_cons; [done|].
    apply elem_of_folder_columns in Hin as (entries' & ? & ->). by simplify_eq.
  - unfold presence_column. by rewrite length_fmap.
  - intros i row. apply presence_column_lookup.
  - rewrite presence_column_yes. apply Permutation_length, NoDup_Permutation.
    + apply NoDup_filter, NoDup_sorted.
    + apply NoDup_elements.
    + intros r. rewrite list_elem_of_filter, elem_of_sorted, elem_of_elements.
      rewrite elem_of_all_filenames, elem_of_difference, not_elem_of_singleton.
      split; [tauto|]. intros [Hr Hn]. split; [done|]. split; [done|].
      exists f, (cleaned_keys entries). split; [|done].
      apply clean_dict_lookup. eauto.
Qed.

Lemma C4_presence_cells_witness :
  ∃ col,
    (("B"%string, col) : string * list cell) ∈ columns
      (mkDataFrame ["1 song"; "2 other"]
         [("Number", [Int 1; Int 2]); ("A", [Str "yes"; Str "yes"]);
          ("B", [Str "yes"; Str "no"])])%string ∧
    length (filter (λ c, c = Str "yes") col) = 1.
Proof.
  destruct (C4_presence_cells example_listing _ "B"%string
              (list_to_map [("1_song_alto.pdf"%string, GoogleDriveFile)])
              create_file_matrix_example eq_refl)
    as (col & Hin & _ & _ & _ & Hyes).
  exists col. split; [exact Hin|]. rewrite Hyes. reflexivity.
Defined.

(** C5, as the code has it: the row labels are the non-empty keys of all
    folders, each once, in ascending order; the column labels are
    ["Number"] followed by the names of the folders, each once, in
    ascending order; a file at the top level gives no column. *)
Theorem C5_rows_and_columns L m :
  create_file_matrix L = inr m →
  StronglySorted String.le (index m) ∧ NoDup (index m) ∧
  (∀ r, r ∈ index m ↔
        r ≠ ""%string ∧
        ∃ f entries, L !! f = Some (Dict entries) ∧ r ∈ cleaned_keys entries) ∧
  ∃ folders,
    labels m = "Number"%string :: folders ∧
    StronglySorted String.le folders ∧ NoDup folders ∧
    (∀ f, f ∈ folders ↔ ∃ entries, L !! f = Some (Dict entries)).
Proof.
  intros Hm. pose proof (labels_create_file_matrix _ _ Hm) as Hl.
  apply create_file_matrix_inr in Hm as (_ & -> & _).
  split; [apply Sorted_sorted|]. split; [apply NoDup_sorted|]. split.
  - intros r. rewrite elem_of_sorted, elem_of_all_filenames.
    setoid_rewrite clean_dict_lookup. naive_solver.
  - exists (sorted (dom (clean_dict L))). split; [done|].
    split; [apply Sorted_sorted|]. split; [apply NoDup_sorted|].
    intros f. by rewrite elem_of_sorted, elem_of_dom_clean_dict.
Qed.

Lemma C5_rows_and_columns_witness :
  labels (mkDataFrame ["1 song"; "2 other"]
            [("Number", [Int 1; Int 2]); ("A", [Str "yes"; Str "yes"]);
             ("B", [Str "yes"; Str "no"])])%string
  = ["Number"; "A"; "B"]%string ∧
  ∃ folders, ["Number"; "A"; "B"]%string = "Number"%string :: folders ∧
    NoDup folders.
Proof.
  split; [reflexivity|].
  destruct (C5_rows_and_columns example_listing _ create_file_matrix_example)
    as (_ & _ & _ & folders & Hl & _ & Hnd & _).
  exists folders. split; [exact Hl|exact Hnd].
Defined.

(** C5 as stated fails: the folders of the example listing are A and B,
    and the matrix has the three columns Number, A and B. *)
Lemma C5_columns_counterexample :
  ∃ m, create_file_matrix example_listing = inr m ∧
       sorted (dom (clean_dict example_listing)) = ["A"; "B"]%string ∧
       labels m = ["Number"; "A"; "B"]%string ∧
       labels m ≠ sorted (dom (clean_dict example_listing)).
Proof.
  eexists. split; [apply create_file_matrix_example|].
  split; [by vm_compute|]. split; [done|]. by vm_compute.
Qed.

(** C8: the matrix has at most as many rows as there are distinct names
    listed in the folders. *)
Theorem C8_row_count L m :
  create_file_matrix L = inr m →
  length (index m) ≤ size (listed_filenames L).
Proof.
  intros (_ & -> & _)%create_file_matrix_inr. rewrite length_sorted.
  etrans; [|apply (size_set_map_le clean_filename)].
  apply subseteq_size. intros r Hr.
  apply elem_of_all_filenames in Hr as [_ (f & ks & Hf & Hr)].
  apply clean_dict_lookup in Hf as (entries & Hf & ->).
  apply elem_of_cleaned_keys in Hr as (n & -> & Hn).
  apply elem_of_map_2. unfold listed_filenames.
  apply elem_of_union_list. exists (dom entries). split; [|done].
  apply list_elem_of_fmap. exists (Dict entries). split; [done|].
  apply list_elem_of_fmap. exists (f, Dict entries). split; [done|].
  by apply elem_of_map_to_list.
Qed.

Lemma C8_row_count_witness :
  length ["1 song"; "2 other"]%string ≤ size (listed_filenames example_listing).
Proof.
  exact (C8_row_count example_listing _ create_file_matrix_example).
Defined.

(** C9: on a frame with a column labelled [misc_parts], [filter_matrix]
    returns the frame without the columns of that label: the row labels,
    and every other column with its cells, stay as they were and in
    order; where the labels are distinct, as in every frame
    [create_file_matrix] builds, exactly one column is taken out. *)
Theorem C9_filter_drops_column df :
  misc_parts ∈ labels df →
  ∃ df',
    filter_matrix df = inr df' ∧
    index df' = index df ∧
    columns df'
      = filter (λ c : string * list cell, c.1 ≠ misc_parts) (columns df) ∧
    (misc_parts ∉ labels df') ∧
    (∀ c, c.1 ≠ misc_parts → c ∈ columns df → c ∈ columns df') ∧
    (NoDup (labels df) →
       ∃ before values after,
         columns df = before ++ (misc_parts, values) :: after ∧
         columns df' = before ++ after).
Proof.
  intros Hin. unfold filter_matrix. rewrite decide_True by done.
  eexists. split; [done|]. simpl. split; [done|]. split; [done|].
  split; [|split].
  - unfold labels. simpl. intros ([l v] & -> & Hc)%list_elem_of_fmap.
    by apply list_elem_of_filter in Hc as [Hc _].
  - intros c Hne Hc. by apply list_elem_of_filter.
  - intros Hnd. by apply filter_label_unique.
Qed.

Lemma C9_filter_drops_column_witness :
  ∃ df',
    filter_matrix
      (mkDataFrame ["1 song"%string]
         [("Number"%string, [Int 1]); (misc_parts, [Str "no"]);
          ("ALTO 1"%string, [Str "yes"])]) = inr df' ∧
    columns df' = [("Number"%string, [Int 1]); ("ALTO 1"%string, [Str "yes"])].
Proof.
  destruct (C9_filter_drops_column
              (mkDataFrame ["1 song"%string]
                 [("Number"%string, [Int 1]); (misc_parts, [Str "no"]);
                  ("ALTO 1"%string, [Str "yes"])]))
    as (df' & Hf & _ & Hc & _).
  - unfold labels. simpl. right. left.
  - exists df'. split; [exact Hf|]. rewrite Hc. reflexivity.
Defined.

(** C10: on a frame with no column labelled [misc_parts], [filter_matrix]
    raises [KeyError]; so for a listing with no folder of that name the
    pipeline of [create_file_matrix] and [filter_matrix] ends in an
    error. *)
Theorem C10_filter_raises :
  (∀ df, misc_parts ∉ labels df → filter_matrix df = inl KeyError) ∧
  (∀ L, (∀ entries, L !! misc_parts ≠ Some (Dict entries)) →
     (∀ m, create_file_matrix L = inr m → filter_matrix m = inl KeyError) ∧
     ∃ e, pipeline L = inl e).
Proof.
  assert (∀ df, misc_parts ∉ labels df → filter_matrix df = inl KeyError) as H.
  { intros df Hn. unfold filter_matrix. by rewrite decide_False. }
  split; [exact H|]. intros L HL.
  assert (∀ m, create_file_matrix L = inr m → filter_matrix m = inl KeyError)
    as Hm.
  { intros m Hm. apply H. rewrite (labels_create_file_matrix _ _ Hm).
    intros [?|Hin]%elem_of_cons; [done|].
    apply elem_of_sorted, elem_of_dom_clean_dict in Hin as [entries ?].
    by eapply HL. }
  split; [exact Hm|]. unfold pipeline.
  destruct (create_file_matrix L) as [e|m] eqn:E; eauto.
Qed.

Lemma C10_filter_raises_witness :
  filter_matrix
    (mkDataFrame ["1 song"; "2 other"]
       [("Number", [Int 1; Int 2]); ("A", [Str "yes"; Str "yes"]);
        ("B", [Str "yes"; Str "no"])])%string = inl KeyError ∧
  ∃ e, pipeline example_listing = inl e.
Proof.
  assert (∀ entries, example_listing !! misc_parts ≠ Some (Dict entries)) as H
    by (intros entries; vm_compute; discriminate).
  destruct (proj2 C10_filter_raises example_listing H) as [Hm He].
  split; [exact (Hm _ create_file_matrix_example)|exact He].
Defined.

(** ** Re-normalising a key *)

Lemma canon_lower c :
  is_punct_or_digit c = false → chr_eqb c "_" = false →
  negb (isspace c) || chr_eqb c " " = true → canon (lower c) = true.
Proof. by_chars c. Qed.

Lemma canon_facts c :
  canon c = true →
  isdigit c = false ∧ is_punct_or_digit c = false ∧ chr_eqb c "_" = false ∧
  isupper_AZ c = false ∧ lower c = c ∧ chr_eqb c LF = false ∧
  chr_eqb c "." = false.
Proof. by_chars c. Qed.

Lemma not_separator c :
  isspace c = false → chr_eqb c "_" = false → chr_eqb c "-" = false →
  is_separator c = false.
Proof. unfold is_separator. by intros -> -> ->. Qed.

Lemma chars_app s1 s2 :
  list_ascii_of_string (s1 ++ s2)
  = list_ascii_of_string s1 ++ list_ascii_of_string s2.
Proof. induction s1 as [|c s1 IH]; simpl; [done|]. by rewrite IH. Qed.

Lemma head_rev_last (l : str) : head (rev l) = last l.
Proof. by rewrite <- last_rev_head, rev_involutive. Qed.

Lemma rstrip_id p l c : last l = Some c → p c = false → rstrip p l = l.
Proof.
  intros Hl Hc. unfold rstrip. rewrite drop_while_id, rev_involutive; [done|].
  right. exists c. by rewrite head_rev_last.
Qed.

Lemma elem_of_drop_while p (l : str) c : c ∈ drop_while p l → c ∈ l.
Proof.
  rewrite <- (take_drop_while p l) at 2. intros H. apply elem_of_app. by right.
Qed.

Lemma elem_of_rstrip p (l : str) c : c ∈ rstrip p l → c ∈ l.
Proof.
  destruct (rstrip_split p l) as (t & Hl & _). intros H.
  rewrite Hl. apply elem_of_app. by left.
Qed.

Lemma elem_of_strip (l : str) c : c ∈ strip l → c ∈ l.
Proof. by intros H%elem_of_rstrip%elem_of_drop_while. Qed.

Lemma elem_of_prefix_nocase pat (l r : str) c :
  prefix_nocase pat l = Some r → c ∈ r → c ∈ l.
Proof.
  revert l. induction pat as [|p pat IH]; intros l; simpl.
  - by intros [= ->].
  - destruct l as [|a l]; [done|]. destruct (chr_eqb _ _); [|done].
    intros H Hc. right. eauto.
Qed.

Lemma elem_of_match_token ts (l r : str) c :
  match_token ts l = Some r → c ∈ r → c ∈ l.
Proof.
  induction ts as [|t ts IH]; simpl; [done|].
  destruct (prefix_nocase t l) as [r'|] eqn:E; [|done].
  intros [= ->]. by eapply elem_of_prefix_nocase.
Qed.

Lemma elem_of_dot_star_end (l r : str) c :
  dot_star_end l = Some r → c ∈ r → c ∈ l.
Proof.
  unfold dot_star_end.
  destruct (drop_while _ l) as [|a [|b t]] eqn:E; intros [= <-] Hc.
  - inversion Hc.
  - apply (elem_of_drop_while (λ c, negb (chr_eqb c LF))). by rewrite E.
Qed.

Lemma elem_of_strip_suffix (l : str) c : c ∈ strip_suffix l → c ∈ l.
Proof.
  induction l as [|a l IH]; [done|]. cbn [strip_suffix].
  destruct (suffix_at (a :: l)) as [rest|] eqn:E.
  - unfold suffix_at in E. destruct (take_while isspace _); [done|].
    destruct (match_token _ _) as [r|] eqn:Et; [|done].
    intros Hc. eapply elem_of_drop_while, elem_of_match_token; [done|].
    by eapply elem_of_dot_star_end.
  - intros [->|Hc]%elem_of_cons; [left|right; auto].
Qed.

Lemma elem_of_strip_trailer (l : str) c : c ∈ strip_trailer l → c ∈ l.
Proof.
  induction l as [|a l IH]; [done|]. cbn [strip_trailer].
  destruct (trailer_at (a :: l)) as [rest|] eqn:E.
  - unfold trailer_at in E.
    destruct (drop_while isspace (a :: l)) as [|b r] eqn:Ed; [done|].
    destruct (_ || _); [|done]. intros Hc.
    apply (elem_of_drop_while isspace). rewrite Ed. right.
    by eapply elem_of_dot_star_end.
  - intros [->|Hc]%elem_of_cons; [left|right; auto].
Qed.

Lemma elem_of_split_camel (l : str) c : c ∈ split_camel l → c ∈ l ∨ c = " ".
Proof.
  revert c. induction l as [l IH] using (induction_ltof1 _ length).
  unfold ltof in IH. intros c. destruct l as [|a [|b r]]; simpl.
  - by left.
  - by left.
  - destruct (_ && _).
    + rewrite !elem_of_cons. intros [->|[->|[->|Hc]]]; auto.
      destruct (IH r ltac:(simpl; lia) c Hc); auto.
    + rewrite !elem_of_cons. intros [->|Hc]; [by auto|].
      destruct (IH (b :: r) ltac:(simpl; lia) c Hc) as [H|H]; auto.
      left. right. by apply elem_of_cons.
Qed.

Lemma elem_of_collapse_spaces (l : str) c :
  c ∈ collapse_spaces l → c ∈ l ∨ c = " ".
Proof.
  induction l as [|a l IH]; [by left|]. cbn [collapse_spaces].
  destruct (isspace a).
  - destruct l as [|b l].
    + intros [->|H]%elem_of_cons; [by right|inversion H].
    + destruct (isspace b).
      * intros [H|H]%IH; auto. left. by right.
      * intros [->|[H|H]%IH]%elem_of_cons; auto. left. by right.
  - intros [->|[H|H]%IH]%elem_of_cons; auto; left; [left|by right].
Qed.

Lemma collapsed_cons c r :
  collapsed (c :: r)
  = (negb (isspace c)
     || (chr_eqb c " "
         && match r with c' :: _ => negb (isspace c') | [] => true end))
    && collapsed r.
Proof. reflexivity. Qed.

Lemma collapsed_collapse_spaces l : collapsed (collapse_spaces l) = true.
Proof.
  induction l as [|c r IH]; [done|]. cbn [collapse_spaces].
  destruct (isspace c) eqn:Ec.
  - destruct r as [|c' r']; [done|].
    destruct (isspace c') eqn:Ec'; [done|].
    assert (collapse_spaces (c' :: r') = c' :: collapse_spaces r') as Heq
      by (cbn [collapse_spaces]; by rewrite Ec').
    rewrite Heq in *. by rewrite collapsed_cons, IH, Ec'.
  - by rewrite collapsed_cons, IH, Ec.
Qed.

Lemma collapsed_app_r a b : collapsed (a ++ b) = true → collapsed b = true.
Proof.
  induction a as [|c a IH]; [done|]. simpl.
  intros [_ H]%andb_true_iff. auto.
Qed.

Lemma collapsed_app_l a b : collapsed (a ++ b) = true → collapsed a = true.
Proof.
  induction a as [|c a IH]; [done|]. simpl.
  intros [Hc H]%andb_true_iff. rewrite (IH H), andb_true_r.
  destruct a as [|c' a]; simpl in *; [|done].
  destruct (isspace c); [|done]. simpl in *.
  apply andb_true_iff in Hc as [-> _]. done.
Qed.

Lemma collapsed_drop_while p l :
  collapsed l = true → collapsed (drop_while p l) = true.
Proof.
  rewrite <- (take_drop_while p l) at 1. apply collapsed_app_r.
Qed.

Lemma collapsed_rstrip p l : collapsed l = true → collapsed (rstrip p l) = true.
Proof.
  destruct (rstrip_split p l) as (t & Hl & _). rewrite Hl at 1.
  apply collapsed_app_l.
Qed.

Lemma collapsed_strip l : collapsed l = true → collapsed (strip l) = true.
Proof. intros H. by apply collapsed_rstrip, collapsed_drop_while. Qed.

Lemma space_lower c : chr_eqb c " " = true → chr_eqb (lower c) " " = true.
Proof. by intros ->%chr_eqb_eq. Qed.

Lemma collapsed_map_lower l :
  collapsed l = true → collapsed (map lower l) = true.
Proof.
  induction l as [|c r IH]; [done|]. simpl.
  intros [Hc H]%andb_true_iff. rewrite (IH H), andb_true_r.
  rewrite isspace_lower. destruct (isspace c); [|done]. simpl in *.
  apply andb_true_iff in Hc as [Hs Hn]. rewrite (space_lower _ Hs). simpl.
  destruct r as [|c' r]; simpl; [done|]. by rewrite isspace_lower.
Qed.

Lemma collapsed_elem l c :
  collapsed l = true → c ∈ l → negb (isspace c) || chr_eqb c " " = true.
Proof.
  induction l as [|a l IH]; simpl; [by intros _ H; inversion H|].
  intros [Ha H]%andb_true_iff [->|Hc]%elem_of_cons; [|auto].
  destruct (isspace a); [|done]. simpl in *.
  by apply andb_true_iff in Ha as [-> _].
Qed.

Lemma collapse_spaces_id l : collapsed l = true → collapse_spaces l = l.
Proof.
  induction l as [|c r IH]; [done|]. simpl.
  intros [Hc H]%andb_true_iff. rewrite (IH H).
  destruct (isspace c); [|done]. simpl in Hc.
  apply andb_true_iff in Hc as [->%chr_eqb_eq Hn].
  destruct r as [|c' r]; [done|]. by apply negb_true_iff in Hn as ->.
Qed.

(** Steps that leave a canonical name as it is. *)

Lemma canon_forall l c : forallb canon l = true → c ∈ l → canon c = true.
Proof.
  rewrite forallb_forall. intros H Hc. by apply H, list_elem_of_In.
Qed.

Lemma replace_underscores_id l :
  forallb canon l = true → replace_underscores l = l.
Proof.
  induction l as [|c r IH]; [done|]. simpl.
  intros [Hc H]%andb_true_iff. rewrite (IH H).
  destruct (canon_facts c Hc) as (_ & _ & -> & _). done.
Qed.

Lemma remove_punctuation_id l :
  forallb canon l = true → remove_punctuation l = l.
Proof.
  intros H. apply filter_keeps_all. intros c Hc.
  destruct (canon_facts c (canon_forall _ _ H Hc)) as (_ & -> & _). done.
Qed.

Lemma split_camel_id l : forallb canon l = true → split_camel l = l.
Proof.
  induction l as [|a t IH]; [done|]. intros [Ha H]%andb_true_iff.
  cbn [split_camel]. destruct t as [|b r]; [done|].
  assert (isupper_AZ b = false) as ->.
  { simpl in H. apply andb_true_iff in H as [Hb _].
    by destruct (canon_facts b Hb) as (_ & _ & _ & -> & _). }
  rewrite andb_false_r. by rewrite (IH H).
Qed.

Lemma map_lower_id l : forallb canon l = true → map lower l = l.
Proof.
  induction l as [|c r IH]; [done|]. simpl.
  intros [Hc H]%andb_true_iff. rewrite (IH H).
  by destruct (canon_facts c Hc) as (_ & _ & _ & _ & -> & _).
Qed.

Lemma has_dot_canon l : forallb canon l = true → has_dot l = false.
Proof.
  induction l as [|c r IH]; [done|]. simpl.
  intros [Hc H]%andb_true_iff. rewrite (IH H).
  by destruct (canon_facts c Hc) as (_ & _ & _ & _ & _ & _ & ->).
Qed.

Lemma rsplit_dot_ext a e :
  has_dot e = false → rsplit_dot (a ++ "." :: e) = a.
Proof.
  intros He. induction a as [|c a IH]; simpl.
  - by rewrite He.
  - rewrite IH. assert (has_dot (a ++ "." :: e) = true) as ->; [|by rewrite andb_false_r].
    clear IH. induction a as [|c' a IH]; simpl; [done|].
    by rewrite IH, orb_true_r.
Qed.

Lemma dot_star_end_no_LF l :
  forallb (λ c, negb (chr_eqb c LF)) l = true → dot_star_end l = Some [].
Proof.
  intros H. unfold dot_star_end.
  assert (drop_while (λ c, negb (chr_eqb c LF)) l = []) as ->; [|done].
  induction l as [|c r IH]; [done|]. simpl in *.
  apply andb_true_iff in H as [-> H]. auto.
Qed.

Lemma dot_star_end_length l r : dot_star_end l = Some r → length r ≤ length l.
Proof.
  unfold dot_star_end. intros H.
  assert (length (drop_while (λ c, negb (chr_eqb c LF)) l) ≤ length l) as Hl.
  { rewrite <- (take_drop_while (λ c, negb (chr_eqb c LF)) l) at 2.
    rewrite length_app. lia. }
  destruct (drop_while _ l) as [|a [|b t]]; simplify_eq; simpl in *; lia.
Qed.

Lemma trailer_at_length l r : trailer_at l = Some r → length r < length l.
Proof.
  unfold trailer_at. intros H.
  assert (length (drop_while isspace l) ≤ length l) as Hl.
  { rewrite <- (take_drop_while isspace l) at 2. rewrite length_app. lia. }
  destruct (drop_while isspace l) as [|c t]; [done|].
  destruct (_ || _); [|done]. apply dot_star_end_length in H. simpl in Hl. lia.
Qed.

(** A name without line feeds that the parenthesis and dash rule leaves
    alone contains neither character. *)
Lemma strip_trailer_fixed l c :
  forallb canon l = true → strip_trailer l = l → c ∈ l →
  chr_eqb c "(" || chr_eqb c "-" = false.
Proof.
  induction l as [|a l IH]; [by intros _ _ H; inversion H|].
  intros Hall Hfix Hc. pose proof Hall as Hall'.
  simpl in Hall'. apply andb_true_iff in Hall' as [Ha Hl].
  cbn [strip_trailer] in Hfix.
  destruct (trailer_at (a :: l)) as [rest|] eqn:E.
  { apply trailer_at_length in E. rewrite Hfix in E. lia. }
  injection Hfix as Hfix.
  apply elem_of_cons in Hc as [->|Hc]; [|by apply IH].
  destruct (chr_eqb a "(" || chr_eqb a "-") eqn:Ea; [|done].
  exfalso. unfold trailer_at in E.
  assert (isspace a = false) as Hs by (revert Ea; by_chars a).
  simpl in E. rewrite Hs, Ea in E.
  rewrite dot_star_end_no_LF in E; [done|].
  rewrite forallb_forall in Hl |- *. intros x Hx.
  by destruct (canon_facts x (Hl x Hx)) as (_ & _ & _ & _ & _ & -> & _).
Qed.

(** The name part that [clean_name] returns is canonical. *)

Lemma replace_underscores_elem l c :
  c ∈ replace_underscores l → chr_eqb c "_" = false.
Proof.
  unfold replace_underscores. intros (x & -> & _)%list_elem_of_fmap.
  destruct (chr_eqb x "_") eqn:E; done.
Qed.

Lemma remove_punctuation_elem l c :
  c ∈ remove_punctuation l → is_punct_or_digit c = false ∧ c ∈ l.
Proof.
  unfold remove_punctuation. intros [Hp Hc]%list_elem_of_filter.
  split; [|done]. by destruct (is_punct_or_digit c).
Qed.

Lemma last_map_lower l : last (map lower l) = lower <$> last l.
Proof.
  induction l as [|a [|b l] IH]; [done..|].
  change (last (map lower (b :: l)) = lower <$> last (b :: l)). exact IH.
Qed.

Lemma clean_name_canon l :
  forallb canon (clean_name l) = true ∧
  collapsed (clean_name l) = true ∧
  (∀ c, last (clean_name l) = Some c → isspace c = false).
Proof.
  unfold clean_name.
  set (s4 := strip_oclock (strip_number_prefix (rsplit_dot l))).
  set (s7 := strip_trailer (strip_suffix (replace_underscores s4))).
  set (u := collapse_spaces (split_camel (remove_punctuation s7))).
  split; [|split].
  - apply forallb_forall. intros c Hc%list_elem_of_In.
    apply list_elem_of_fmap in Hc as (c' & -> & Hc).
    apply elem_of_strip, elem_of_rstrip, elem_of_strip in Hc.
    apply canon_lower.
    + apply elem_of_collapse_spaces in Hc as [Hc| ->]; [|done].
      apply elem_of_split_camel in Hc as [Hc| ->]; [|done].
      by apply remove_punctuation_elem in Hc as [? _].
    + apply elem_of_collapse_spaces in Hc as [Hc| ->]; [|done].
      apply elem_of_split_camel in Hc as [Hc| ->]; [|done].
      apply remove_punctuation_elem in Hc as [_ Hc].
      apply elem_of_strip_trailer, elem_of_strip_suffix in Hc.
      by eapply replace_underscores_elem.
    + eapply collapsed_elem; [|done]. apply collapsed_collapse_spaces.
  - apply collapsed_map_lower, collapsed_strip, collapsed_rstrip,
      collapsed_strip, collapsed_collapse_spaces.
  - intros c. rewrite last_map_lower.
    destruct (last (strip _)) as [c'|] eqn:E; [|done].
    intros [= <-]. rewrite isspace_lower. by eapply strip_last.
Qed.

Lemma key_name_key n name : key_name (str_of_int n ++ " " :: name) = name.
Proof.
  unfold key_name. rewrite drop_while_app; [done| |done].
  apply forallb_digit_not_space, str_of_int_digits.
Qed.

(** A canonical name behind a numeral, with an extension that has no
    period of its own, is normalised to itself. *)
Lemma clean_filename_chars_key n name c c' ext :
  forallb canon name = true → collapsed name = true →
  head name = Some c → isspace c = false →
  last name = Some c' → isspace c' = false →
  strip_suffix name = name → strip_trailer name = name →
  has_dot ext = false →
  clean_filename_chars (str_of_int n ++ " " :: name ++ "." :: ext)
  = str_of_int n ++ " " :: name.
Proof.
  intros Hcanon Hcol Hhd Hc Hlast Hc' Hsuf Htr Hext.
  assert (c ∈ name) as Hin.
  { destruct name; simplify_eq/=. left. }
  assert (c' ∈ name) as Hin'.
  { apply list_elem_of_lookup. exists (pred (length name)).
    by rewrite <- last_lookup. }
  destruct (canon_facts c (canon_forall _ _ Hcanon Hin))
    as (Hdig & _ & Hund & _).
  pose proof (strip_trailer_fixed _ _ Hcanon Htr Hin) as Hd.
  pose proof (strip_trailer_fixed _ _ Hcanon Htr Hin') as Hd'.
  apply orb_false_iff in Hd as [_ Hd]. apply orb_false_iff in Hd' as [_ Hd'].
  pose proof (str_of_int_nonempty n) as Hne.
  pose proof (str_of_int_digits n) as Hds.
  unfold clean_filename_chars.
  rewrite take_while_app by done.
  destruct (str_of_int n) as [|d ds] eqn:En; [done|]. rewrite <- En.
  rewrite int_str_of_int.
  assert (clean_name (str_of_int n ++ " " :: name ++ "." :: ext) = name)
    as ->; [|by destruct name].
  unfold clean_name.
  replace (str_of_int n ++ " " :: name ++ "." :: ext)
    with ((str_of_int n ++ " " :: name) ++ "." :: ext)
    by (by rewrite <- app_assoc).
  rewrite rsplit_dot_ext by done.
  assert (strip_number_prefix (str_of_int n ++ " " :: name) = name) as ->.
  { unfold strip_number_prefix.
    rewrite take_while_app; [|apply str_of_int_digits|done]. rewrite En.
    rewrite <- En, drop_while_app; [|apply str_of_int_digits|done]. simpl.
    rewrite (drop_while_id isspace) by eauto.
    apply drop_while_id. right. exists c. split; [done|].
    by apply not_separator. }
  assert (strip_oclock name = name) as ->.
  { unfold strip_oclock. destruct name as [|a r]; simplify_eq/=.
    by rewrite Hdig. }
  rewrite replace_underscores_id by done. rewrite Hsuf, Htr.
  rewrite remove_punctuation_id, split_camel_id, collapse_spaces_id by done.
  assert (strip name = name) as Hstrip.
  { unfold strip. rewrite drop_while_id by eauto. by eapply rstrip_id. }
  rewrite Hstrip. unfold rstrip_dash.
  rewrite (rstrip_id _ _ c') by done. rewrite Hstrip.
  by apply map_lower_id.
Qed.

(** C2, as the code has it: a non-empty key [x] that [clean_filename]
    returned is reproduced by [clean_filename (x ++ ".pdf")] when neither
    the instrument-suffix rule nor the parenthesis and dash rule changes
    the text of [x] after its first space. *)
Theorem C2_key_fixed_point f x :
  clean_filename f = x → x ≠ ""%string →
  strip_suffix (key_name (list_ascii_of_string x))
    = key_name (list_ascii_of_string x) →
  strip_trailer (key_name (list_ascii_of_string x))
    = key_name (list_ascii_of_string x) →
  clean_filename (x ++ ".pdf") = x.
Proof.
  intros <- Hne.
  destruct (clean_filename_shape f) as [?|(name & Hn & Hname & Hx)]; [done|].
  rewrite Hx, chars_of_string, key_name_key. intros Hsuf Htr.
  destruct (clean_name_canon (list_ascii_of_string f)) as (Hcanon & Hcol & Hl).
  rewrite <- Hname in Hcanon, Hcol, Hl.
  destruct name as [|c name'] eqn:En; [done|]. rewrite <- En in *.
  assert (head name = Some c) as Hhd by (by rewrite En).
  assert (isspace c = false) as Hc.
  { apply (clean_name_head (list_ascii_of_string f)). by rewrite <- Hname. }
  destruct (last name) as [c'|] eqn:El.
  2:{ rewrite En in El. by apply last_None in El. }
  unfold clean_filename at 1. rewrite chars_app, chars_of_string.
  rewrite <- app_assoc. cbn [app list_ascii_of_string].
  by rewrite (clean_filename_chars_key _ _ c c') by eauto.
Qed.

Lemma C2_key_fixed_point_witness :
  clean_filename "12_Song_Name_Alto.pdf" = "12 song name"%string ∧
  clean_filename ("12 song name" ++ ".pdf") = "12 song name"%string.
Proof.
  split; [reflexivity|].
  apply (C2_key_fixed_point "12_Song_Name_Alto.pdf" "12 song name").
  - reflexivity.
  - discriminate.
  - reflexivity.
  - reflexivity.
Defined.

(** C2 as stated fails: ["1 SongAlto.pdf"] gives the key ["1 song alto"],
    whose camel-case split uncovers an instrument suffix; with [".pdf"]
    appended that key gives ["1 song"]. *)
Lemma C2_fixed_point_counterexample :
  clean_filename "1 SongAlto.pdf" = "1 song alto"%string ∧
  "1 song alto"%string ≠ ""%string ∧
  clean_filename ("1 song alto" ++ ".pdf") = "1 song"%string ∧
  clean_filename ("1 song alto" ++ ".pdf") ≠ "1 song alto"%string.
Proof. repeat split; by vm_compute. Qed.

(** * Further properties of the code *)

(** ** Keys *)

Lemma canon_spelled_out c :
  canon c = true →
  isdigit c = false ∧ c ≠ "'" ∧ c ≠ "," ∧ c ≠ "." ∧ c ≠ "_" ∧
  isupper_AZ c = false ∧ lower c = c ∧ (isspace c = true → c = " ").
Proof. by_chars c; repeat split; congruence. Qed.

Lemma collapsed_adjacent l i a b :
  collapsed l = true → l !! i = Some a → l !! S i = Some b →
  isspace a = true → isspace b = false.
Proof.
  revert i. induction l as [|c r IH]; intros i; [done|].
  rewrite collapsed_cons. intros [Hc Hr]%andb_true_iff.
  destruct i as [|i]; simpl.
  - intros [= ->] Hb Ha. rewrite Ha in Hc. simpl in Hc.
    apply andb_true_iff in Hc as [_ Hc].
    destruct r as [|c' r]; simplify_eq/=. by apply negb_true_iff.
  - by apply IH.
Qed.

Lemma key_name_clean_filename f :
  clean_filename f ≠ ""%string →
  key_name (list_ascii_of_string (clean_filename f))
  = clean_name (list_ascii_of_string f).
Proof.
  intros Hne.
  destruct (clean_filename_shape f) as [?|(name & _ & -> & ->)]; [done|].
  by rewrite chars_of_string, key_name_key.
Qed.

(** X1: after its first space a key holds no digit, apostrophe, comma,
    period or underscore, no capital letter A..Z, only characters that
    [lower] leaves alone, and no white space other than the space. *)
Theorem X1_key_name_characters f c :
  clean_filename f ≠ ""%string →
  c ∈ key_name (list_ascii_of_string (clean_filename f)) →
  isdigit c = false ∧ c ≠ "'" ∧ c ≠ "," ∧ c ≠ "." ∧ c ≠ "_" ∧
  isupper_AZ c = false ∧ lower c = c ∧ (isspace c = true → c = " ").
Proof.
  intros Hne. rewrite key_name_clean_filename by done. intros Hc.
  destruct (clean_name_canon (list_ascii_of_string f)) as (Hcanon & _).
  apply canon_spelled_out. by eapply canon_forall.
Qed.

Lemma X1_key_name_characters_witness :
  isupper_AZ "s" = false ∧ lower "s" = "s".
Proof.
  assert (clean_filename "12_Song_Name_Alto.pdf" ≠ ""%string) as Hne
    by (by vm_compute).
  assert ("s" ∈ key_name (list_ascii_of_string
                            (clean_filename "12_Song_Name_Alto.pdf"))) as Hin
    by (vm_compute; left).
  destruct (X1_key_name_characters _ _ Hne Hin) as (_ & _ & _ & _ & _ & Hu & Hl & _).
  split; [exact Hu|exact Hl].
Defined.

(** X2: the name part of a key neither begins nor ends with white space,
    and no two white-space characters are adjacent in it. *)
Theorem X2_key_name_spacing f :
  clean_filename f ≠ ""%string →
  let name := key_name (list_ascii_of_string (clean_filename f)) in
  (∃ c, head name = Some c ∧ isspace c = false) ∧
  (∃ c, last name = Some c ∧ isspace c = false) ∧
  (∀ i a b, name !! i = Some a → name !! S i = Some b →
            isspace a = true → isspace b = false).
Proof.
  intros Hne. rewrite key_name_clean_filename by done. simpl.
  destruct (clean_name_canon (list_ascii_of_string f)) as (_ & Hcol & Hl).
  destruct (clean_filename_shape f) as [?|(name & Hn & Hname & _)]; [done|].
  rewrite <- Hname in *. split; [|split].
  - destruct name as [|c r] eqn:E; [done|]. exists c. split; [done|].
    apply (clean_name_head (list_ascii_of_string f)). by rewrite <- Hname.
  - destruct (last name) as [c|] eqn:E; [eauto|].
    apply last_None in E. done.
  - intros i a b. by apply collapsed_adjacent.
Qed.

Lemma X2_key_name_spacing_witness :
  ∃ c, last (key_name (list_ascii_of_string
                         (clean_filename "03 - Title  .mp3"))) = Some c
       ∧ isspace c = false.
Proof.
  assert (clean_filename "03 - Title  .mp3" ≠ ""%string) as Hne
    by (by vm_compute).
  exact (proj1 (proj2 (X2_key_name_spacing _ Hne))).
Defined.






Lemma take_while_app_stop p (a : str) c e :
  p c = false → take_while p (a ++ c :: e) = take_while p (a ++ [c]).
Proof.
  intros Hc. induction a as [|x a IH]; simpl; [by rewrite Hc|].
  destruct (p x); [by rewrite IH|done].
Qed.

Lemma clean_filename_chars_ext a e :
  has_dot e = false →
  clean_filename_chars (a ++ "." :: e) = clean_filename_chars (a ++ ["."]).
Proof.
  intros He. unfold clean_filename_chars, clean_name.
  rewrite (take_while_app_stop isdigit a "." e) by done.
  by rewrite !rsplit_dot_ext.
Qed.

(** X4: the key does not depend on what follows the last period of the
    file name: two names that differ only in their extension have the same
    key. *)
Theorem X4_extension_immaterial (a e e' : string) :
  has_dot (list_ascii_of_string e) = false →
  has_dot (list_ascii_of_string e') = false →
  clean_filename (a ++ "." ++ e) = clean_filename (a ++ "." ++ e').
Proof.
  intros He He'. unfold clean_filename.
  rewrite !chars_app. cbn [list_ascii_of_string app].
  rewrite (clean_filename_chars_ext _ (list_ascii_of_string e)) by done.
  by rewrite (clean_filename_chars_ext _ (list_ascii_of_string e')) by done.
Qed.

Lemma X4_extension_immaterial_witness :
  clean_filename ("12 Song.Name" ++ "." ++ "pdf")
  = clean_filename ("12 Song.Name" ++ "." ++ "mp3").
Proof.
  apply (X4_extension_immaterial "12 Song.Name" "pdf" "mp3"); reflexivity.
Defined.

Lemma rsplit_dot_none l : has_dot l = false → rsplit_dot l = l.
Proof.
  induction l as [|c r IH]; [done|]. simpl.
  intros [-> Hr]%orb_false_iff. simpl. by rewrite IH.
Qed.

Lemma take_while_snoc_stop p (a : str) c :
  p c = false → take_while p (a ++ [c]) = take_while p a.
Proof.
  intros Hc. induction a as [|x a IH]; simpl; [by rewrite Hc|].
  destruct (p x); [by rewrite IH|done].
Qed.

(** X5: a file name without any period has the key it would have with an
    extension added: nothing of it is taken for an extension. *)
Theorem X5_no_extension (a e : string) :
  has_dot (list_ascii_of_string a) = false →
  has_dot (list_ascii_of_string e) = false →
  clean_filename (a ++ "." ++ e) = clean_filename a.
Proof.
  intros Ha He. unfold clean_filename.
  rewrite !chars_app. cbn [list_ascii_of_string app].
  rewrite (clean_filename_chars_ext _ (list_ascii_of_string e)) by done.
  unfold clean_filename_chars, clean_name.
  rewrite take_while_snoc_stop by done.
  rewrite (rsplit_dot_ext _ []) by done. by rewrite rsplit_dot_none.
Qed.

Lemma X5_no_extension_witness :
  clean_filename ("12 Song Name" ++ "." ++ "pdf") = clean_filename "12 Song Name".
Proof.
  apply (X5_no_extension "12 Song Name" "pdf"); reflexivity.
Defined.

Lemma elem_of_rsplit_dot (l : str) c : c ∈ rsplit_dot l → c ∈ l.
Proof.
  induction l as [|a l IH]; [done|]. simpl.
  destruct (_ && _); [by intros H; inversion H|].
  intros [->|H]%elem_of_cons; [left|right; auto].
Qed.

Lemma elem_of_strip_number_prefix (l : str) c :
  c ∈ strip_number_prefix l → c ∈ l.
Proof.
  unfold strip_number_prefix. destruct (take_while isdigit l); [done|].
  by intros H%elem_of_drop_while%elem_of_drop_while%elem_of_drop_while.
Qed.

Lemma elem_of_strip_oclock (l : str) c : c ∈ strip_oclock l → c ∈ l.
Proof.
  unfold strip_oclock. destruct (take_while isdigit l); [done|].
  destruct (take_while isspace _); [done|].
  destruct (prefix_nocase _ _) as [r3|] eqn:E; [|done].
  destruct (take_while isspace r3); [done|].
  intros H%elem_of_drop_while.
  eapply elem_of_drop_while, elem_of_drop_while, elem_of_prefix_nocase; done.
Qed.

Lemma elem_of_replace_underscores (l : str) c :
  c ∈ replace_underscores l → c ∈ l ∨ c = " ".
Proof.
  unfold replace_underscores. intros (x & -> & Hx)%list_elem_of_fmap.
  destruct (chr_eqb x "_"); auto.
Qed.

Lemma strip_trailer_no_paren (l : str) c :
  (∀ x, x ∈ l → x ≠ LF) → c ∈ strip_trailer l →
  chr_eqb c "(" || chr_eqb c "-" = false.
Proof.
  induction l as [|a l IH]; [by intros _ H; inversion H|].
  intros Hl. cbn [strip_trailer].
  assert (dot_star_end l = Some []) as Hd.
  { apply dot_star_end_no_LF, forallb_forall. intros x Hx%list_elem_of_In.
    apply negb_true_iff. destruct (chr_eqb x LF) eqn:E; [|done].
    apply chr_eqb_eq in E. exfalso. apply (Hl x); [by right|done]. }
  destruct (trailer_at (a :: l)) as [rest|] eqn:E.
  - unfold trailer_at in E.
    destruct (drop_while isspace (a :: l)) as [|b r] eqn:Ed; [done|].
    destruct (chr_eqb b "(" || chr_eqb b "-"); [|done].
    assert (dot_star_end r = Some []) as Hr;
      [|rewrite Hr in E; injection E as <-; intros H; inversion H].
    apply dot_star_end_no_LF, forallb_forall. intros x Hx%list_elem_of_In.
    apply negb_true_iff. destruct (chr_eqb x LF) eqn:Ex; [|done].
    apply chr_eqb_eq in Ex. exfalso. apply (Hl x); [|done].
    apply (elem_of_drop_while isspace). rewrite Ed. by right.
  - intros [->|Hc]%elem_of_cons.
    + destruct (chr_eqb a "(" || chr_eqb a "-") eqn:Ea; [|done].
      unfold trailer_at in E.
      assert (isspace a = false) as Hs by (revert Ea; by_chars a).
      simpl in E. by rewrite Hs, Ea, Hd in E.
    + apply IH; [|done]. intros x Hx. apply Hl. by right.
Qed.

Lemma lower_paren_dash c :
  chr_eqb c "(" || chr_eqb c "-" = false →
  chr_eqb (lower c) "(" || chr_eqb (lower c) "-" = false.
Proof. by_chars c. Qed.

Lemma digit_not_paren_dash c :
  isdigit c = true → chr_eqb c "(" || chr_eqb c "-" = false.
Proof. by_chars c. Qed.

(** X6: the key of a file name that holds no line feed contains neither an
    opening parenthesis nor a hyphen. *)
Theorem X6_no_parenthesis_or_dash f c :
  LF ∉ list_ascii_of_string f →
  c ∈ list_ascii_of_string (clean_filename f) → c ≠ "(" ∧ c ≠ "-".
Proof.
  intros Hlf Hc.
  assert (chr_eqb c "(" || chr_eqb c "-" = false) as H.
  2:{ apply orb_false_iff in H as [H1 H2].
      split; intros ->; by rewrite chr_eqb_refl in *. }
  destruct (clean_filename_shape f) as [E|(name & _ & Hname & E)];
    rewrite E in Hc; [by inversion Hc|].
  rewrite chars_of_string in Hc.
  apply elem_of_app in Hc as [Hc|[->|Hc]%elem_of_cons]; [| done |].
  { apply digit_not_paren_dash.
    pose proof (str_of_int_digits
      (int (take_while isdigit (list_ascii_of_string f)))) as Hd.
    rewrite forallb_forall in Hd. by apply Hd, list_elem_of_In. }
  subst name. unfold clean_name in Hc.
  apply list_elem_of_fmap in Hc as (c' & -> & Hc). apply lower_paren_dash.
  apply elem_of_strip, elem_of_rstrip, elem_of_strip in Hc.
  apply elem_of_collapse_spaces in Hc as [Hc| ->]; [|done].
  apply elem_of_split_camel in Hc as [Hc| ->]; [|done].
  apply remove_punctuation_elem in Hc as [_ Hc].
  eapply strip_trailer_no_paren; [|done].
  intros x Hx%elem_of_strip_suffix%elem_of_replace_underscores.
  destruct Hx as [Hx| ->]; [|done].
  apply elem_of_strip_oclock, elem_of_strip_number_prefix,
    elem_of_rsplit_dot in Hx.
  intros ->. done.
Qed.

Lemma X6_no_parenthesis_or_dash_witness : "t" ≠ "(" ∧ "t" ≠ "-".
Proof.
  apply (X6_no_parenthesis_or_dash "03-Title (Live Version).mp3" "t").
  - vm_compute. intros H. repeat (apply elem_of_cons in H as [H|H]; [discriminate|]).
    inversion H.
  - vm_compute. right. right. left.
Defined.

(** ** The matrix *)



Lemma number_column_cells idx numbers :
  number_column idx = Some numbers →
  length numbers = length idx ∧ ∀ cl, cl ∈ numbers → ∃ n, cl = Int n.
Proof.
  intros H%mapM_Some. split; [symmetry; by eapply Forall2_length|].
  intros cl (i & Hi)%list_elem_of_lookup.
  destruct (Forall2_lookup_r _ _ _ _ _ H Hi) as (row & _ & Hp).
  destruct (parse_int (first_token row)) as [n|]; simplify_eq/=. eauto.
Qed.

Lemma presence_column_cells idx keys cl :
  cl ∈ presence_column idx keys → cl = Str "yes" ∨ cl = Str "no".
Proof.
  unfold presence_column. intros (row & -> & _)%list_elem_of_fmap.
  destruct (bool_decide _); auto.
Qed.

(** X8: a frame that [create_file_matrix] returns is well formed: its
    column labels are distinct, every column has one cell per row, the
    cells of the Number column are integers and every other cell is the
    string ["yes"] or ["no"]; no NaN and no boolean is left. *)
Theorem X8_frame_well_formed L m :
  create_file_matrix L = inr m →
  NoDup (labels m) ∧
  ∀ label col, (label, col) ∈ columns m →
    length col = length (index m) ∧
    (label = "Number"%string → ∀ cl, cl ∈ col → ∃ n, cl = Int n) ∧
    (label ≠ "Number"%string →
       ∀ cl, cl ∈ col → cl = Str "yes" ∨ cl = Str "no").
Proof.
  intros Hm. pose proof (labels_create_file_matrix _ _ Hm) as Hl.
  apply create_file_matrix_inr in Hm as (Hn & Hidx & numbers & Hnum & Hc).
  split.
  { rewrite Hl. apply NoDup_cons. split; [|apply NoDup_sorted].
    by rewrite elem_of_sorted. }
  destruct (number_column_cells _ _ Hnum) as [Hlen Hint].
  intros label col. rewrite Hc. intros [[= -> ->]|Hin]%elem_of_cons.
  - split; [done|]. split; [done|]. done.
  - apply elem_of_folder_columns in Hin as (entries & Hf & ->).
    assert (label ≠ "Number"%string) as Hne.
    { intros ->. apply Hn, elem_of_dom_clean_dict. eauto. }
    split; [|split; [done|]].
    + unfold presence_column. by rewrite length_fmap, Hidx.
    + intros _ cl. apply presence_column_cells.
Qed.

Lemma X8_frame_well_formed_witness :
  NoDup ["Number"; "A"; "B"]%string.
Proof.
  exact (proj1 (X8_frame_well_formed example_listing _
                  create_file_matrix_example)).
Defined.

(** X9: every row of the matrix has a ["yes"] in some folder column: a
    key is a row only because some folder has it. *)
Theorem X9_row_has_yes L m i row :
  create_file_matrix L = inr m → index m !! i = Some row →
  ∃ f col, f ≠ "Number"%string ∧ (f, col) ∈ columns m ∧
           col !! i = Some (Str "yes").
Proof.
  intros (Hn & Hidx & numbers & _ & Hc)%create_file_matrix_inr Hrow.
  assert (row ∈ all_filenames (clean_dict L)) as Hr.
  { apply elem_of_sorted. rewrite <- Hidx. by eapply list_elem_of_lookup_2. }
  apply elem_of_all_filenames in Hr as [_ (f & ks & Hf & Hr)].
  apply clean_dict_lookup in Hf as (entries & Hf & ->).
  exists f, (presence_column (index m) (cleaned_keys entries)).
  split; [|split].
  - intros ->. apply Hn, elem_of_dom_clean_dict. eauto.
  - rewrite Hc, Hidx. right. apply elem_of_folder_columns. eauto.
  - rewrite (presence_column_lookup _ _ _ _ Hrow).
    by rewrite bool_decide_eq_true_2.
Qed.

Lemma X9_row_has_yes_witness :
  ∃ f col, f ≠ "Number"%string ∧
    (f, col) ∈ [("Number", [Int 1; Int 2]); ("A", [Str "yes"; Str "yes"]);
                ("B", [Str "yes"; Str "no"])]%string ∧
    col !! 1 = Some (Str "yes").
Proof.
  exact (X9_row_has_yes example_listing _ 1 "2 other"%string
           create_file_matrix_example eq_refl).
Defined.

(** X10: a folder none of whose titles gives a key has a column of
    ["no"] only. *)
Theorem X10_unrecognised_folder L m f entries :
  create_file_matrix L = inr m → L !! f = Some (Dict entries) →
  (∀ n, n ∈ dom entries → clean_filename n = ""%string) →
  ∃ col, (f, col) ∈ columns m ∧ length col = length (index m) ∧
         ∀ cl, cl ∈ col → cl = Str "no".
Proof.
  intros (Hn & Hidx & numbers & _ & Hc)%create_file_matrix_inr Hf Hnone.
  exists (presence_column (index m) (cleaned_keys entries)).
  split; [|split].
  - rewrite Hc, Hidx. right. apply elem_of_folder_columns. eauto.
  - unfold presence_column. by rewrite length_fmap.
  - unfold presence_column. intros cl (row & -> & Hrow)%list_elem_of_fmap.
    rewrite bool_decide_eq_false_2; [done|].
    intros (n & -> & Hin)%elem_of_cleaned_keys.
    rewrite Hidx in Hrow.
    apply elem_of_sorted, elem_of_all_filenames in Hrow as [Hne _].
    by apply Hne, Hnone.
Qed.

Lemma X10_unrecognised_folder_witness :
  ∃ col,
    (("C"%string, col) : string * list cell)
      ∈ [("Number", [Int 1]); ("A", [Str "yes"]); ("C", [Str "no"])]%string ∧
    length col = 1 ∧ ∀ cl, cl ∈ col → cl = Str "no".
Proof.
  apply (X10_unrecognised_folder
           (list_to_map [("A"%string, files_of ["1 Song.mp3"%string]);
                         ("C"%string, files_of ["notes.txt"%string])])
           (mkDataFrame ["1 song"%string]
              [("Number", [Int 1]); ("A", [Str "yes"]);
               ("C", [Str "no"])]%string)
           "C"%string
           {["notes.txt"%string := GoogleDriveFile]}).
  - vm_compute. reflexivity.
  - reflexivity.
  - intros n Hn. rewrite dom_singleton_L in Hn.
    apply elem_of_singleton in Hn as ->. reflexivity.
Defined.

Lemma clean_dict_insert_file L t :
  clean_dict (<[t := GoogleDriveFile]> L) = clean_dict (delete t L).
Proof.
  unfold clean_dict. by rewrite omap_insert_None, omap_delete.
Qed.

Lemma clean_dict_insert_folder L f entries :
  clean_dict (<[f := Dict entries]> L)
  = <[f := cleaned_keys entries]> (clean_dict L).
Proof. unfold clean_dict. by apply omap_insert_Some. Qed.

Lemma create_file_matrix_clean_dict L L' :
  clean_dict L = clean_dict L' → create_file_matrix L = create_file_matrix L'.
Proof.
  intros H. rewrite !create_file_matrix_unfold. unfold folder_columns.
  by rewrite H.
Qed.

(** X11: a file at the top level of the listing is ignored: the matrix is
    the one of the listing without that entry (also when the file takes
    the place of a folder of the same title). *)
Theorem X11_top_level_file_ignored L t :
  create_file_matrix (<[t := GoogleDriveFile]> L)
  = create_file_matrix (delete t L).
Proof. apply create_file_matrix_clean_dict, clean_dict_insert_file. Qed.

(** X12: the matrix depends on a folder only through the set of titles in
    it: whether a title stands for a file or for a sub-folder, and what a
    sub-folder holds, makes no difference. *)
Theorem X12_only_titles_matter L f entries entries' :
  dom entries = dom entries' →
  create_file_matrix (<[f := Dict entries]> L)
  = create_file_matrix (<[f := Dict entries']> L).
Proof.
  intros H. apply create_file_matrix_clean_dict.
  rewrite !clean_dict_insert_folder. unfold cleaned_keys. by rewrite H.
Qed.

Lemma X12_only_titles_matter_witness :
  create_file_matrix
    (<["A"%string := Dict {["1 Song.mp3"%string := GoogleDriveFile]}]> ∅)
  = create_file_matrix
      (<["A"%string := Dict {["1 Song.mp3"%string :=
           Dict {["2 Other.mp3"%string := GoogleDriveFile]}]}]> ∅).
Proof.
  apply (X12_only_titles_matter ∅ "A"%string). by rewrite !dom_singleton_L.
Defined.

(** X13: a listing without folders gives the frame with no row and the
    Number column alone. *)
Theorem X13_no_folder L :
  (∀ f entries, L !! f ≠ Some (Dict entries)) →
  create_file_matrix L = inr (mkDataFrame [] [("Number"%string, [])]).
Proof.
  intros H. assert (clean_dict L = ∅) as Hcd.
  { apply map_eq. intros f. rewrite lookup_empty.
    destruct (clean_dict L !! f) as [ks|] eqn:E; [|done].
    apply clean_dict_lookup in E as (entries & Hf & _). by apply H in Hf. }
  rewrite (create_file_matrix_clean_dict L ∅) by done.
  by vm_compute.
Qed.

Lemma X13_no_folder_witness :
  create_file_matrix {["readme.txt"%string := GoogleDriveFile]}
  = inr (mkDataFrame [] [("Number"%string, [])]).
Proof.
  apply X13_no_folder. intros f entries.
  destruct (decide (f = "readme.txt"%string)) as [->|Hne].
  - by rewrite lookup_singleton_eq.
  - by rewrite lookup_singleton_ne.
Defined.

(** ** Dropping the column, and the pipeline *)

(** X14: [filter_matrix] cannot be applied twice: on the frame it returned
    it raises [KeyError], the column being gone. *)
Theorem X14_filter_twice df df' :
  filter_matrix df = inr df' → filter_matrix df' = inl KeyError.
Proof.
  unfold filter_matrix at 1. destruct (decide _); [|done]. intros [= <-].
  unfold filter_matrix, labels. simpl. rewrite decide_False; [done|].
  intros ([l v] & -> & Hc)%list_elem_of_fmap.
  by apply list_elem_of_filter in Hc as [Hc _].
Qed.

Lemma X14_filter_twice_witness :
  filter_matrix
    (mkDataFrame ["1 song"%string] [("Number"%string, [Int 1])])
  = inl KeyError.
Proof.
  apply (X14_filter_twice
           (mkDataFrame ["1 song"%string]
              [("Number"%string, [Int 1]); (misc_parts, [Str "yes"])])).
  reflexivity.
Defined.

Lemma pipeline_inr L m :
  pipeline L = inr m ↔
  ∃ m0, create_file_matrix L = inr m0 ∧ misc_parts ∈ labels m0 ∧
        m = mkDataFrame (index m0)
              (filter (λ c : string * list cell, c.1 ≠ misc_parts)
                 (columns m0)).
Proof.
  unfold pipeline, filter_matrix.
  destruct (create_file_matrix L) as [e|m0]; [naive_solver|].
  destruct (decide _); naive_solver.
Qed.



Lemma labels_filter (cols : list (string * list cell)) label :
  (filter (λ c : string * list cell, c.1 ≠ label) cols).*1
  = filter (λ l, l ≠ label) cols.*1.
Proof.
  induction cols as [|[l v] cols IH]; [done|].
  rewrite fmap_cons, !filter_cons. simpl.
  destruct (decide (l ≠ label)); simpl; [f_equal|]; exact IH.
Qed.

(** X16: the frame the pipeline returns has the rows of the matrix
    unchanged, and as columns Number followed by the folders other than
    [misc_parts] in ascending order: one column fewer than the matrix. *)
Theorem X16_pipeline_frame L m :
  pipeline L = inr m →
  ∃ m0, create_file_matrix L = inr m0 ∧
    index m = index m0 ∧
    labels m = "Number"%string
               :: filter (λ f, f ≠ misc_parts) (sorted (dom (clean_dict L))) ∧
    length (columns m) + 1 = length (columns m0) ∧
    ∀ c, c ∈ columns m ↔ c ∈ columns m0 ∧ c.1 ≠ misc_parts.
Proof.
  intros (m0 & Hm0 & Hin & ->)%pipeline_inr. exists m0. split; [done|].
  simpl. split; [done|].
  pose proof (labels_create_file_matrix _ _ Hm0) as Hl.
  split; [|split].
  - unfold labels. simpl. rewrite labels_filter. fold (labels m0).
    rewrite Hl, filter_cons_True; [done|].
    pose proof misc_parts_not_number. congruence.
  - assert (NoDup (labels m0)) as Hnd.
    { rewrite Hl. apply NoDup_cons. split; [|apply NoDup_sorted].
      rewrite elem_of_sorted. by apply create_file_matrix_inr in Hm0 as [? _]. }
    destruct (filter_label_unique _ _ Hnd Hin)
      as (before & values & after & -> & ->).
    rewrite !length_app. simpl. lia.
  - intros c. rewrite list_elem_of_filter. tauto.
Qed.

Lemma X16_pipeline_frame_witness :
  ∃ m, pipeline misc_listing = inr m ∧ labels m = ["Number"; "ALTO 1"]%string.
Proof.
  assert (pipeline misc_listing
          = inr (mkDataFrame ["1 song"; "2 vocal"]%string
                   [("Number"%string, [Int 1; Int 2]);
                    ("ALTO 1"%string, [Str "yes"; Str "no"])])) as H
    by (vm_compute; reflexivity).
  eexists. split; [exact H|].
  destruct (X16_pipeline_frame _ _ H) as (m0 & _ & _ & Hl & _).
  rewrite Hl. vm_compute. reflexivity.
Defined.

(** X17: dropping the column drops no row: a key that only the folder
    [misc_parts] has is still a row of the frame the pipeline returns, and
    every folder column left has ["no"] in that row. *)
Theorem X17_dropped_folder_rows_stay L m entries row :
  pipeline L = inr m → L !! misc_parts = Some (Dict entries) →
  row ∈ cleaned_keys entries → row ≠ ""%string →
  (∀ f entries', f ≠ misc_parts → L !! f = Some (Dict entries') →
     row ∉ cleaned_keys entries') →
  ∃ i, index m !! i = Some row ∧
       ∀ f col, (f, col) ∈ columns m → f ≠ "Number"%string →
                col !! i = Some (Str "no").
Proof.
  intros (m0 & Hm0 & _ & ->)%pipeline_inr Hmisc Hrow Hne Hothers. simpl.
  apply create_file_matrix_inr in Hm0 as (Hn & Hidx & numbers & _ & Hc).
  assert (row ∈ index m0) as (i & Hi)%list_elem_of_lookup.
  { rewrite Hidx. apply elem_of_sorted, elem_of_all_filenames.
    split; [done|]. exists misc_parts, (cleaned_keys entries).
    split; [|done]. apply clean_dict_lookup. eauto. }
  exists i. split; [done|]. intros f col [Hf Hin]%list_elem_of_filter Hnum.
  simpl in Hf. rewrite Hc in Hin.
  apply elem_of_cons in Hin as [[= ? _]|Hin]; [done|].
  apply elem_of_folder_columns in Hin as (entries' & Hf' & ->).
  rewrite <- Hidx. rewrite (presence_column_lookup _ _ _ _ Hi).
  rewrite bool_decide_eq_false_2; [done|]. by eapply Hothers.
Qed.

Lemma X17_dropped_folder_rows_stay_witness :
  ∃ i, ["1 song"; "2 vocal"]%string !! i = Some "2 vocal"%string ∧
       ∀ f col,
         (f, col) ∈ [("Number"%string, [Int 1; Int 2]);
                     ("ALTO 1"%string, [Str "yes"; Str "no"])] →
         f ≠ "Number"%string → col !! i = Some (Str "no").
Proof.
  apply (X17_dropped_folder_rows_stay misc_listing
           (mkDataFrame ["1 song"; "2 vocal"]%string
              [("Number"%string, [Int 1; Int 2]);
               ("ALTO 1"%string, [Str "yes"; Str "no"])])
           {["2 Vocal.pdf"%string := GoogleDriveFile]} "2 vocal"%string).
  - vm_compute. reflexivity.
  - reflexivity.
  - unfold cleaned_keys. rewrite dom_singleton_L, set_map_singleton_L.
    apply elem_of_singleton. reflexivity.
  - discriminate.
  - intros f entries' Hf Hl.
    destruct (decide (f = "ALTO 1"%string)) as [->|Hne].
    + vm_compute in Hl. injection Hl as <-.
      intros H. vm_compute in H. discriminate H.
    + unfold misc_listing in Hl. simpl in Hl.
      rewrite lookup_insert_ne in Hl by done.
      rewrite lookup_insert_ne in Hl by done.
      by rewrite lookup_empty in Hl.
Defined.

(** ** Listing the drive *)

Example download_responses_example :
  download_responses 3 example_drive "root"
  = Some (list_to_map
      [("ALTO 1"%string,
        Dict (list_to_map
          [("1 Song.mp3"%string, GoogleDriveFile);
           ("2 Drafts"%string,
            Dict (list_to_map [("3 Sketch.pdf"%string, GoogleDriveFile)]))]));
       ("Old"%string, GoogleDriveFile)])
  ∧ download_responses 2 example_drive "root" = None.
Proof. split; by vm_compute. Qed.

Lemma foldl_add_entry_None sub files : foldl (add_entry sub) None files = None.
Proof. induction files as [|f files IH]; [done|]. exact IH. Qed.

Lemma add_entry_Some sub r0 f r :
  add_entry sub (Some r0) f = Some r →
  ∃ v, r = <[title f := v]> r0 ∧
       Some v = if decide (mimeType f = folder_mime)
                then Dict <$> sub (id f) else Some GoogleDriveFile.
Proof.
  unfold add_entry. simpl. destruct (decide _).
  - destruct (sub (id f)) as [s|]; simpl; [|done]. intros [= <-]. eauto.
  - intros [= <-]. eauto.
Qed.

Lemma foldl_add_entry_inv sub f files r0 r :
  foldl (add_entry sub) (Some r0) (f :: files) = Some r →
  ∃ r1, add_entry sub (Some r0) f = Some r1 ∧
        foldl (add_entry sub) (Some r1) files = Some r.
Proof.
  cbn [foldl]. destruct (add_entry sub (Some r0) f) as [r1|]; [eauto|].
  by rewrite foldl_add_entry_None.
Qed.

Lemma foldl_add_entry_dom sub files r0 r :
  foldl (add_entry sub) (Some r0) files = Some r →
  dom r = dom r0 ∪ list_to_set (title <$> files).
Proof.
  revert r0. induction files as [|f files IH]; intros r0.
  - intros [= <-]. set_solver.
  - intros (r1 & (v & -> & _)%add_entry_Some & Hr)%foldl_add_entry_inv.
    rewrite (IH _ Hr), dom_insert_L, fmap_cons, list_to_set_cons. set_solver.
Qed.

Lemma foldl_add_entry_other sub files r0 r t :
  foldl (add_entry sub) (Some r0) files = Some r →
  t ∉ title <$> files → r !! t = r0 !! t.
Proof.
  revert r0. induction files as [|f files IH]; intros r0.
  - by intros [= <-].
  - intros (r1 & (v & -> & _)%add_entry_Some & Hr)%foldl_add_entry_inv.
    rewrite fmap_cons, not_elem_of_cons. intros [Hne Ht].
    rewrite (IH _ Hr Ht). by rewrite lookup_insert_ne.
Qed.

Lemma foldl_add_entry_last sub before f after r0 r :
  foldl (add_entry sub) (Some r0) (before ++ f :: after) = Some r →
  title f ∉ title <$> after →
  r !! title f = if decide (mimeType f = folder_mime)
                 then Dict <$> sub (id f) else Some GoogleDriveFile.
Proof.
  revert r0. induction before as [|b before IH]; intros r0; simpl app.
  - intros (r1 & (v & -> & Hv)%add_entry_Some & Hr)%foldl_add_entry_inv Ht.
    rewrite (foldl_add_entry_other _ _ _ _ _ Hr Ht).
    by rewrite lookup_insert_eq, Hv.
  - intros (r1 & _ & Hr)%foldl_add_entry_inv. eauto.
Qed.

Lemma last_occurrence (files : list file) t :
  t ∈ title <$> files →
  ∃ before f after,
    files = before ++ f :: after ∧ title f = t ∧ t ∉ title <$> after.
Proof.
  induction files as [|f files IH]; [by intros H; inversion H|].
  rewrite fmap_cons. intros Hin.
  destruct (decide (t ∈ title <$> files)) as [Ht|Ht].
  - destruct (IH Ht) as (before & f' & after & -> & Hf & Ha).
    by exists (f :: before), f', after.
  - apply elem_of_cons in Hin as [->|Hin]; [|done].
    by exists [], f, files.
Qed.

Lemma foldl_add_entry_mono (sub sub' : string → option (gmap string item))
    files r0 r :
  (∀ x s, sub x = Some s → sub' x = Some s) →
  foldl (add_entry sub) r0 files = Some r →
  foldl (add_entry sub') r0 files = Some r.
Proof.
  intros Hsub. revert r0. induction files as [|f files IH]; intros r0; [done|].
  cbn [foldl]. destruct r0 as [r0|].
  2:{ change (add_entry sub None f) with (@None (gmap string item)).
      by rewrite foldl_add_entry_None. }
  destruct (add_entry sub (Some r0) f) as [r1|] eqn:E;
    [|by rewrite foldl_add_entry_None].
  assert (add_entry sub' (Some r0) f = Some r1) as ->; [|by apply IH].
  revert E. unfold add_entry. simpl. destruct (decide _); [|done].
  destruct (sub (id f)) as [s|] eqn:Es; [|done].
  by rewrite (Hsub _ _ Es).
Qed.

Lemma list_files_recursive_S d ListFile folder_id r :
  list_files_recursive d ListFile folder_id = Some r →
  list_files_recursive (S d) ListFile folder_id = Some r.
Proof.
  revert folder_id r. induction d as [|d IH]; intros folder_id r; [done|].
  intros H. change (foldl (add_entry (list_files_recursive (S d) ListFile))
                      (Some ∅) (ListFile folder_id) = Some r).
  by apply (foldl_add_entry_mono (list_files_recursive d ListFile)).
Qed.

(** X18: the keys of the dict that [list_files_recursive] returns for a
    folder are exactly the titles the query lists for it. *)
Theorem X18_listing_keys depth ListFile folder_id result :
  download_responses depth ListFile folder_id = Some result →
  dom result = list_to_set (title <$> ListFile folder_id).
Proof.
  unfold download_responses. destruct depth as [|d]; [done|]. simpl.
  intros H%foldl_add_entry_dom. set_solver.
Qed.

Lemma X18_listing_keys_witness :
  dom (list_to_map
      [("ALTO 1"%string,
        Dict (list_to_map
          [("1 Song.mp3"%string, GoogleDriveFile);
           ("2 Drafts"%string,
            Dict (list_to_map [("3 Sketch.pdf"%string, GoogleDriveFile)]))]));
       ("Old"%string, GoogleDriveFile)] : gmap string item)
  = list_to_set (title <$> example_drive "root").
Proof.
  exact (X18_listing_keys 3 example_drive "root"%string _
           (proj1 download_responses_example)).
Defined.

(** X19: where several listed files have the same title, the last one
    decides the entry: a file gives a file handle, a folder gives the dict
    of its own listing, one level deeper. *)
Theorem X19_last_title_wins d ListFile folder_id result before f after :
  download_responses (S d) ListFile folder_id = Some result →
  ListFile folder_id = before ++ f :: after →
  title f ∉ title <$> after →
  result !! title f
  = if decide (mimeType f = folder_mime)
    then Dict <$> download_responses d ListFile (id f)
    else Some GoogleDriveFile.
Proof.
  unfold download_responses. intros H Hl Ht.
  cbn [list_files_recursive] in H. rewrite Hl in H.
  by apply (foldl_add_entry_last _ _ _ _ _ _ H).
Qed.

Lemma X19_last_title_wins_witness :
  (list_to_map
      [("ALTO 1"%string,
        Dict (list_to_map
          [("1 Song.mp3"%string, GoogleDriveFile);
           ("2 Drafts"%string,
            Dict (list_to_map [("3 Sketch.pdf"%string, GoogleDriveFile)]))]));
       ("Old"%string, GoogleDriveFile)] : gmap string item) !! "Old"%string
  = Some GoogleDriveFile.
Proof.
  exact (X19_last_title_wins 2 example_drive "root"%string _
           [mkFile "ALTO 1" folder_mime "a1"; mkFile "Old" folder_mime "o1"]%string
           (mkFile "Old" "application/pdf" "o2")%string []
           (proj1 download_responses_example) eq_refl
           (not_elem_of_nil _)).
Defined.

(** X20: a listing obtained within some nesting depth is obtained, the
    same, within every larger one. *)
Theorem X20_depth_monotone d d' ListFile folder_id result :
  download_responses d ListFile folder_id = Some result → d ≤ d' →
  download_responses d' ListFile folder_id = Some result.
Proof.
  unfold download_responses. intros H Hle.
  induction Hle as [|d' _ IH]; [done|]. by apply list_files_recursive_S.
Qed.

Lemma X20_depth_monotone_witness :
  download_responses 5 example_drive "root"
  = download_responses 3 example_drive "root".
Proof.
  rewrite (proj1 download_responses_example).
  apply (X20_depth_monotone 3 5).
  - exact (proj1 download_responses_example).
  - lia.
Defined.

Lemma listing_folder depth ListFile folder_id L t :
  download_responses depth ListFile folder_id = Some L →
  (∃ entries, L !! t = Some (Dict entries)) ↔
  ∃ before f after,
    ListFile folder_id = before ++ f :: after ∧ title f = t ∧
    t ∉ title <$> after ∧ mimeType f = folder_mime.
Proof.
  intros HL.
  destruct depth as [|d]; [done|]. unfold download_responses in HL.
  cbn [list_files_recursive] in HL.
  pose proof (foldl_add_entry_dom _ _ _ _ HL) as Hdom. split.
  - intros [entries Ht].
    assert (t ∈ title <$> ListFile folder_id) as Hin.
    { assert (t ∈ dom L) as Hd by (apply elem_of_dom; eauto).
      rewrite Hdom in Hd. set_solver. }
    destruct (last_occurrence _ _ Hin) as (before & f & after & Hl & <- & Ha).
    exists before, f, after. split; [done|]. split; [done|]. split; [done|].
    rewrite Hl in HL. rewrite (foldl_add_entry_last _ _ _ _ _ _ HL Ha) in Ht.
    by destruct (decide _).
  - intros (before & f & after & Hl & <- & Ha & Hm).
    assert (title f ∈ dom L) as [v Hv]%elem_of_dom.
    { rewrite Hdom, Hl, fmap_app, fmap_cons. set_solver. }
    rewrite Hl in HL. rewrite (foldl_add_entry_last _ _ _ _ _ _ HL Ha) in Hv.
    rewrite decide_True in Hv by done.
    destruct (list_files_recursive d ListFile (id f)) as [s|] eqn:E; [|done].
    exists s. rewrite (foldl_add_entry_last _ _ _ _ _ _ HL Ha).
    by rewrite decide_True, E.
Qed.

(** X21: in the matrix of a downloaded listing, the columns besides Number
    are the titles whose last entry in the listing of the top folder is a
    folder; a file listed after a folder of the same title takes the
    column away. *)
Theorem X21_columns_of_drive depth ListFile folder_id L m t :
  download_responses depth ListFile folder_id = Some L →
  create_file_matrix L = inr m →
  t ∈ labels m ↔
  t = "Number"%string ∨
  ∃ before f after,
    ListFile folder_id = before ++ f :: after ∧ title f = t ∧
    t ∉ title <$> after ∧ mimeType f = folder_mime.
Proof.
  intros HL Hm. rewrite (labels_create_file_matrix _ _ Hm), elem_of_cons.
  rewrite elem_of_sorted, elem_of_dom_clean_dict.
  by rewrite (listing_folder _ _ _ _ _ HL).
Qed.

Example create_file_matrix_drive_example :
  create_file_matrix
    (list_to_map
       [("ALTO 1"%string,
         Dict (list_to_map
           [("1 Song.mp3"%string, GoogleDriveFile);
            ("2 Drafts"%string,
             Dict (list_to_map [("3 Sketch.pdf"%string, GoogleDriveFile)]))]));
        ("Old"%string, GoogleDriveFile)])
  = inr (mkDataFrame ["1 song"; "2 drafts"]%string
           [("Number"%string, [Int 1; Int 2]);
            ("ALTO 1"%string, [Str "yes"; Str "yes"])]).
Proof. vm_compute. reflexivity. Qed.

Lemma X21_columns_of_drive_witness :
  "Old"%string
    ∈ labels (mkDataFrame ["1 song"; "2 drafts"]%string
                [("Number"%string, [Int 1; Int 2]);
                 ("ALTO 1"%string, [Str "yes"; Str "yes"])]) ↔
  "Old"%string = "Number"%string ∨
  ∃ before f after,
    example_drive "root" = before ++ f :: after ∧ title f = "Old"%string ∧
    "Old"%string ∉ title <$> after ∧ mimeType f = folder_mime.
Proof.
  exact (X21_columns_of_drive 3 example_drive "root"%string _ _ "Old"%string
           (proj1 download_responses_example)
           create_file_matrix_drive_example).
Defined.

Lemma foldl_add_entry_fails sub before f after r0 :
  mimeType f = folder_mime → sub (id f) = None →
  foldl (add_entry sub) r0 (before ++ f :: after) = None.
Proof.
  intros Hm Hs. rewrite foldl_app. cbn [foldl].
  assert (add_entry sub (foldl (add_entry sub) r0 before) f = None) as ->;
    [|apply foldl_add_entry_None].
  unfold add_entry. destruct (foldl _ r0 before); simpl; [|done].
  by rewrite decide_True, Hs.
Qed.

(** X22: a folder whose listing contains a folder with its own id is never
    listed: whatever the depth allowed, the nesting exceeds it. *)
Theorem X22_self_containing_folder depth ListFile folder_id f :
  f ∈ ListFile folder_id → mimeType f = folder_mime → id f = folder_id →
  download_responses depth ListFile folder_id = None.
Proof.
  intros (before & after & Hl)%list_elem_of_split Hm Hid.
  unfold download_responses. induction depth as [|d IH]; [done|].
  cbn [list_files_recursive]. rewrite Hl.
  apply foldl_add_entry_fails; [done|]. by rewrite Hid.
Qed.

Lemma X22_self_containing_folder_witness :
  download_responses 100
    (λ _, [mkFile "loop" folder_mime "root"]%string) "root" = None.
Proof.
  apply (X22_self_containing_folder 100 _ "root"%string
           (mkFile "loop" folder_mime "root")%string).
  - left.
  - reflexivity.
  - reflexivity.
Defined.

Lemma foldl_add_entry_files sub files r0 :
  (∀ f, f ∈ files → mimeType f ≠ folder_mime) →
  ∃ r, foldl (add_entry sub) (Some r0) files = Some r ∧
       ∀ t v, r !! t = Some v → r0 !! t = Some v ∨ v = GoogleDriveFile.
Proof.
  revert r0. induction files as [|f files IH]; intros r0 Hf; [by eauto|].
  cbn [foldl]. unfold add_entry at 2. simpl.
  rewrite decide_False by (apply Hf; left).
  destruct (IH (<[title f := GoogleDriveFile]> r0)) as (r & -> & Hr).
  { intros f' Hf'. apply Hf. by right. }
  exists r. split; [done|]. intros t v [Hv| ->]%Hr; [|by right].
  destruct (decide (title f = t)) as [<-|Hne].
  - rewrite lookup_insert_eq in Hv. right. congruence.
  - rewrite lookup_insert_ne in Hv by done. by left.
Qed.

(** X23: a top folder that lists no folder is listed within depth one, and
    its matrix is the frame with no row and the Number column alone. *)
Theorem X23_only_files d ListFile folder_id :
  (∀ f, f ∈ ListFile folder_id → mimeType f ≠ folder_mime) →
  ∃ L, download_responses (S d) ListFile folder_id = Some L ∧
       (∀ t v, L !! t = Some v → v = GoogleDriveFile) ∧
       create_file_matrix L = inr (mkDataFrame [] [("Number"%string, [])]).
Proof.
  intros Hf. unfold download_responses. cbn [list_files_recursive].
  destruct (foldl_add_entry_files (list_files_recursive d ListFile)
              (ListFile folder_id) ∅ Hf) as (L & -> & HL).
  assert (∀ t v, L !! t = Some v → v = GoogleDriveFile) as Hfiles.
  { intros t v [Hv|Hv]%HL; [by rewrite lookup_empty in Hv|done]. }
  exists L. split; [done|]. split; [done|].
  assert (clean_dict L = ∅) as Hcd.
  { apply map_eq. intros t. rewrite lookup_empty.
    destruct (clean_dict L !! t) as [ks|] eqn:E; [|done].
    apply clean_dict_lookup in E as (entries & Ht & _).
    by apply Hfiles in Ht. }
  rewrite (create_file_matrix_clean_dict L ∅) by done. by vm_compute.
Qed.

Lemma X23_only_files_witness :
  ∃ L, download_responses 1 example_drive "d1" = Some L ∧
       create_file_matrix L = inr (mkDataFrame [] [("Number"%string, [])]).
Proof.
  destruct (X23_only_files 0 example_drive "d1"%string) as (L & HL & _ & Hm).
  - intros f Hf. vm_compute in Hf.
    apply elem_of_cons in Hf as [->|Hf]; [discriminate|inversion Hf].
  - exists L. split; [exact HL|exact Hm].
Defined.
